(** * politodebate: the command shell (cli.py) and the messaging client
      facade (client.py), embedded and checked against their specification.

    Conventions of the embedding.
    - Python text is a [string] of bytes, the UTF-8 form of the text; the
      builtins [str.lower] and [int] are those of the interpreter, known
      here by what they do on ASCII text (class [Builtins]).
    - The dynamically typed slots of the program (the chat identifier, the
      fetch limit, what the facade's delete returns) hold a [pyval].
    - [await] is sequencing: the program runs one task, so an awaited call
      is a call that may change the remote service and may raise.
    - A computation is a function from the program state to a [result] and
      the next state; an exception is the [Raise] result. *)

From stdpp Require Import gmap strings list fin_maps pretty.
From Stdlib Require Import ZArith Ascii String.

Open Scope string_scope.
Open Scope list_scope.
Open Scope Z_scope.

(** ** Python values *)

Inductive pyval : Type :=
  | PyNone
  | PyInt (z : Z)
  | PyStr (s : string).

Global Instance pyval_eq_dec : EqDecision pyval.
Proof. solve_decision. Defined.

(** [bool(v)]: None, 0 and the empty string are false. *)
Definition truthy (v : pyval) : bool :=
  match v with
  | PyNone => false
  | PyInt z => negb (z =? 0)
  | PyStr s => negb (String.eqb s "")
  end.

(** [str(v)], as an f-string field formats it. *)
Definition py_str (v : pyval) : string :=
  match v with
  | PyNone => "None"
  | PyInt z => pretty z
  | PyStr s => s
  end.

(** [v is None] *)
Definition is_None (v : pyval) : bool :=
  match v with PyNone => true | _ => false end.

(** ** Text *)

Definition lower_ascii (c : ascii) : ascii :=
  let n := N_of_ascii c in
  if ((65 <=? n) && (n <=? 90))%N then ascii_of_N (n + 32) else c.

(** [s.lower()] on text of ASCII characters. *)
Fixpoint ascii_lower (s : string) : string :=
  match s with
  | EmptyString => EmptyString
  | String c s' => String (lower_ascii c) (ascii_lower s')
  end.

(** [" ".join(args)] *)
Fixpoint join (sep : string) (l : list string) : string :=
  match l with
  | [] => ""
  | [x] => x
  | x :: l' => x +:+ sep +:+ join sep l'
  end.

(** White space as [int()] strips it from text of ASCII characters: the
    blank and the bytes 9 to 13. *)
Definition is_space (c : ascii) : bool :=
  let n := N_of_ascii c in
  ((n =? 32) || ((9 <=? n) && (n <=? 13)))%N.

Definition digit_of (c : ascii) : option Z :=
  let n := N_of_ascii c in
  if ((48 <=? n) && (n <=? 57))%N then Some (Z.of_N n - 48) else None.

Fixpoint lstrip (s : list ascii) : list ascii :=
  match s with
  | c :: s' => if is_space c then lstrip s' else s
  | [] => []
  end.

Definition strip (s : list ascii) : list ascii :=
  reverse (lstrip (reverse (lstrip s))).

(** The digits of an integer literal: one or more digits, single
    underscores allowed between two digits. [after_digit] tells whether the
    previous character was a digit. *)
Fixpoint int_digits (acc : Z) (after_digit : bool) (s : list ascii) : option Z :=
  match s with
  | [] => if after_digit then Some acc else None
  | c :: s' =>
      match digit_of c with
      | Some d => int_digits (acc * 10 + d) true s'
      | None =>
          if (Ascii.eqb c "_" && after_digit)%bool
          then match s' with
               | c' :: _ =>
                   match digit_of c' with
                   | Some _ => int_digits acc false s'
                   | None => None
                   end
               | [] => None
               end
          else None
      end
  end.

(** The interpreter refuses a decimal literal of more than
    [sys.get_int_max_str_digits()] digits; 4300 is its default. *)
Definition max_str_digits : N := 4300%N.

Fixpoint count_digits (s : list ascii) : N :=
  match s with
  | [] => 0%N
  | c :: s' =>
      ((match digit_of c with Some _ => 1 | None => 0 end) + count_digits s')%N
  end.

Definition int_literal (ds : list ascii) : option Z :=
  if (max_str_digits <? count_digits ds)%N then None
  else int_digits 0 false ds.

(** [int(s)] on text of ASCII characters, base 10: [None] stands for
    [ValueError]. *)
Definition ascii_int (s : string) : option Z :=
  match strip (list_ascii_of_string s) with
  | "-"%char :: ds => Z.opp <$> int_literal ds
  | "+"%char :: ds => int_literal ds
  | ds => int_literal ds
  end.

(** The number of digits of [str(z)]. *)
Definition decimal_digits (z : Z) : N :=
  count_digits (list_ascii_of_string (pretty z)).

Fixpoint is_ascii (s : string) : bool :=
  match s with
  | EmptyString => true
  | String c s' => (N_of_ascii c <? 128)%N && is_ascii s'
  end.

(** [str.lower] and [int] belong to the interpreter. Beyond ASCII they
    follow the Unicode tables of case, of decimal digits and of white
    space, which are no part of the program: the program is embedded over
    any [lower] and [py_int] that do on text of ASCII characters what
    [ascii_lower] and [ascii_int] do. On such text a string of bytes and
    the text it encodes are the same sequence. *)
Class Builtins : Type := {
  lower : string → string;
  py_int : string → option Z;
  lower_ascii_text : ∀ s, is_ascii s = true → lower s = ascii_lower s;
  py_int_ascii_text : ∀ s, is_ascii s = true → py_int s = ascii_int s
}.

(** The builtins restricted to what they do on ASCII: bytes above 127 pass
    through [lower] unchanged and are no digits. The concrete runs of this
    file, all on ASCII text, use it. *)
Global Instance ascii_builtins : Builtins :=
  Build_Builtins ascii_lower ascii_int (λ _ _, eq_refl) (λ _ _, eq_refl).

(** ** Dates: the UTC [datetime] values the service attaches to messages *)

Record datetime : Type := mk_datetime {
  year : Z; month : Z; day : Z;
  hour : Z; minute : Z; second : Z; microsecond : Z
}.

Definition dt_fields (d : datetime) : list Z :=
  [year d; month d; day d; hour d; minute d; second d; microsecond d].

Fixpoint lex_compare (a b : list Z) : comparison :=
  match a, b with
  | x :: a', y :: b' =>
      match x ?= y with Eq => lex_compare a' b' | c => c end
  | [], [] => Eq
  | [], _ => Lt
  | _, [] => Gt
  end.

(** [a < b] and [a <= b] on datetimes *)
Definition dt_ltb (a b : datetime) : bool :=
  match lex_compare (dt_fields a) (dt_fields b) with Lt => true | _ => false end.
Definition dt_leb (a b : datetime) : bool :=
  match lex_compare (dt_fields a) (dt_fields b) with Gt => false | _ => true end.

Fixpoint zeros (n : nat) : string :=
  match n with O => "" | S n' => String "0" (zeros n') end.

(** [%0wd] for a non-negative field *)
Definition pad (w : nat) (z : Z) : string :=
  let s := pretty z in zeros (w - String.length s) +:+ s.

Definition dt_format (sep : string) (d : datetime) : string :=
  pad 4 (year d) +:+ "-" +:+ pad 2 (month d) +:+ "-" +:+ pad 2 (day d) +:+ sep
  +:+ pad 2 (hour d) +:+ ":" +:+ pad 2 (minute d) +:+ ":" +:+ pad 2 (second d)
  +:+ (if microsecond d =? 0 then "" else "." +:+ pad 6 (microsecond d))
  +:+ "+00:00".

(** [d.isoformat()] and [str(d)] *)
Definition isoformat (d : datetime) : string := dt_format "T" d.
Definition dt_str (d : datetime) : string := dt_format " " d.

(** ** The service's objects *)

Record Message : Type := mk_Message {
  msg_id : Z;
  msg_sender_id : pyval;
  msg_text : pyval;
  msg_date : option datetime
}.

Record User : Type := mk_User {
  user_id : Z;
  user_username : pyval;
  user_first_name : pyval;
  user_last_name : pyval
}.

Record Dialog : Type := mk_Dialog {
  dialog_name : string;
  dialog_id : Z
}.

(** ** Results and computations *)

Inductive exn : Type :=
  | ServiceError (what : string)
  | TypeError
  | IndexError
  | AttributeError (attr : string)
  | FileExistsError
  | IsADirectoryError
  | FileNotFoundError
  | JSONDecodeError.

Inductive result (A : Type) : Type :=
  | Ok (a : A)
  | Raise (e : exn).
Arguments Ok {A} a.
Arguments Raise {A} e.

(** A computation over a state [S]. *)
Definition M (S A : Type) : Type := S → result A * S.

Global Instance M_ret {S} : MRet (M S) := λ A a s, (Ok a, s).
Global Instance M_bind {S} : MBind (M S) := λ A B f m s,
  match m s with
  | (Ok a, s') => f a s'
  | (Raise e, s') => (Raise e, s')
  end.

Definition raise {S A} (e : exn) : M S A := λ s, (Raise e, s).
Definition gets {S A} (f : S → A) : M S A := λ s, (Ok (f s), s).
Definition modify {S} (f : S → S) : M S unit := λ s, (Ok tt, f s).

(** ** JSON values and [json.dumps(v, indent=4, ensure_ascii=False)] *)

#[local] Unset Elimination Schemes.
Inductive json : Type :=
  | JNull
  | JBool (b : bool)
  | JInt (z : Z)
  | JStr (s : string)
  | JArr (items : list json)
  | JObj (members : list (string * json)).
#[local] Set Elimination Schemes.

Definition to_json (v : pyval) : json :=
  match v with
  | PyNone => JNull
  | PyInt z => JInt z
  | PyStr s => JStr s
  end.

Definition hex_digit (n : N) : ascii :=
  if (n <? 10)%N then ascii_of_N (48 + n) else ascii_of_N (87 + n).

(** The escape of one character inside a JSON string: the quote, the
    backslash and the control characters below 0x20 are escaped, everything
    else is written as it is. *)
Definition backslash : string := String (ascii_of_N 92) "".

Definition escape_char (c : ascii) : string :=
  let n := N_of_ascii c in
  if (n =? 34)%N then backslash +:+ String c ""
  else if (n =? 92)%N then backslash +:+ backslash
  else if (n =? 8)%N then backslash +:+ "b"
  else if (n =? 12)%N then backslash +:+ "f"
  else if (n =? 10)%N then backslash +:+ "n"
  else if (n =? 13)%N then backslash +:+ "r"
  else if (n =? 9)%N then backslash +:+ "t"
  else if (n <? 32)%N
       then backslash +:+ "u00"
            +:+ String (hex_digit (n / 16)) (String (hex_digit (n mod 16)) "")
  else String c "".

Fixpoint escape (s : string) : string :=
  match s with
  | EmptyString => ""
  | String c s' => escape_char c +:+ escape s'
  end.

Definition dquote : string := String (ascii_of_N 34) "".
Definition newline : string := String (ascii_of_N 10) "".

Definition quote (s : string) : string := dquote +:+ escape s +:+ dquote.

Fixpoint spaces (n : nat) : string :=
  match n with O => "" | S n' => String " " (spaces n') end.

(** A line break followed by the indentation of nesting depth [level]. *)
Definition newline_indent (level : nat) : string :=
  newline +:+ spaces (4 * level).

Fixpoint dumps_at (level : nat) (v : json) : string :=
  match v with
  | JNull => "null"
  | JBool true => "true"
  | JBool false => "false"
  | JInt z => pretty z
  | JStr s => quote s
  | JArr [] => "[]"
  | JArr items =>
      "[" +:+ newline_indent (S level)
      +:+ join ("," +:+ newline_indent (S level))
               (List.map (dumps_at (S level)) items)
      +:+ newline_indent level +:+ "]"
  | JObj [] => "{}"
  | JObj members =>
      "{" +:+ newline_indent (S level)
      +:+ join ("," +:+ newline_indent (S level))
               (List.map (λ kv, quote (fst kv) +:+ ": " +:+ dumps_at (S level) (snd kv))
                         members)
      +:+ newline_indent level +:+ "}"
  end.

Definition dumps (v : json) : string := dumps_at 0 v.

(** ** [json.loads]: the reader of the files the program writes *)

Definition json_space (c : ascii) : bool :=
  let n := N_of_ascii c in
  ((n =? 32) || (n =? 9) || (n =? 10) || (n =? 13))%N.

Fixpoint skip_ws (s : string) : string :=
  match s with
  | String c s' => if json_space c then skip_ws s' else s
  | EmptyString => EmptyString
  end.

Definition hex_value (c : ascii) : option N :=
  let n := N_of_ascii c in
  if ((48 <=? n) && (n <=? 57))%N then Some (n - 48)%N
  else if ((97 <=? n) && (n <=? 102))%N then Some (n - 87)%N
  else if ((65 <=? n) && (n <=? 70))%N then Some (n - 55)%N
  else None.

(** The bytes (UTF-8) of the code point of a [\uXXXX] escape; surrogates are
    not read. *)
Definition utf8 (cp : N) : option string :=
  if (cp <? 128)%N then Some (String (ascii_of_N cp) "")
  else if (cp <? 2048)%N then
    Some (String (ascii_of_N (192 + cp / 64))
         (String (ascii_of_N (128 + cp mod 64)) ""))
  else if ((55296 <=? cp) && (cp <=? 57343))%N then None
  else
    Some (String (ascii_of_N (224 + cp / 4096))
         (String (ascii_of_N (128 + (cp / 64) mod 64))
         (String (ascii_of_N (128 + cp mod 64)) ""))).

(** The character a one-letter escape stands for. *)
Definition unescape (e : ascii) : option ascii :=
  let n := N_of_ascii e in
  if (n =? 34)%N then Some e
  else if (n =? 92)%N then Some e
  else if (n =? 47)%N then Some e
  else if (n =? 98)%N then Some (ascii_of_N 8)
  else if (n =? 102)%N then Some (ascii_of_N 12)
  else if (n =? 110)%N then Some (ascii_of_N 10)
  else if (n =? 114)%N then Some (ascii_of_N 13)
  else if (n =? 116)%N then Some (ascii_of_N 9)
  else None.

Definition prepend (p : string) (r : option (string * string)) : option (string * string) :=
  match r with
  | Some (body, rest) => Some (p +:+ body, rest)
  | None => None
  end.

(** The body of a string literal, from after its opening quote: the text
    and what follows the closing quote. Unescaped control characters are
    refused. *)
Fixpoint parse_string (s : string) : option (string * string) :=
  match s with
  | EmptyString => None
  | String c s' =>
      let n := N_of_ascii c in
      if (n =? 34)%N then Some ("", s')
      else if (n =? 92)%N then
        match s' with
        | String e s'' =>
            match unescape e with
            | Some ch => prepend (String ch "") (parse_string s'')
            | None =>
                if (N_of_ascii e =? 117)%N then
                  match s'' with
                  | String h1 (String h2 (String h3 (String h4 s3))) =>
                      match hex_value h1, hex_value h2, hex_value h3, hex_value h4 with
                      | Some a, Some b, Some c', Some d =>
                          match utf8 (((a * 16 + b) * 16 + c') * 16 + d)%N with
                          | Some bytes => prepend bytes (parse_string s3)
                          | None => None
                          end
                      | _, _, _, _ => None
                      end
                  | _ => None
                  end
                else None
            end
        | EmptyString => None
        end
      else if (n <? 32)%N then None
      else prepend (String c "") (parse_string s')
  end.

Fixpoint parse_digits (acc : Z) (s : string) : Z * string :=
  match s with
  | String c s' =>
      match digit_of c with
      | Some d => parse_digits (acc * 10 + d) s'
      | None => (acc, s)
      end
  | EmptyString => (acc, EmptyString)
  end.

(** What may not follow an integer: a further digit, or the start of a
    fraction or an exponent (floats are not read). *)
Definition number_goes_on (s : string) : bool :=
  match s with
  | String c _ =>
      let n := N_of_ascii c in
      (match digit_of c with Some _ => true | None => false end
       || (n =? 46) || (n =? 101) || (n =? 69))%N
  | EmptyString => false
  end.

(** An integer: a zero, or a non-zero digit and more digits. *)
Definition parse_natural (s : string) : option (Z * string) :=
  match s with
  | String c s' =>
      match digit_of c with
      | Some d =>
          let '(n, rest) := if d =? 0 then (0, s') else parse_digits d s' in
          if number_goes_on rest then None else Some (n, rest)
      | None => None
      end
  | EmptyString => None
  end.

Definition parse_number (s : string) : option (Z * string) :=
  match s with
  | String c s' =>
      if (N_of_ascii c =? 45)%N
      then match parse_natural s' with
           | Some (n, rest) => Some (- n, rest)
           | None => None
           end
      else parse_natural s
  | EmptyString => None
  end.

Fixpoint strip_prefix (p s : string) : option string :=
  match p, s with
  | EmptyString, _ => Some s
  | String a p', String b s' => if Ascii.eqb a b then strip_prefix p' s' else None
  | _, EmptyString => None
  end.

(** A Python dict as the list of its items in insertion order: setting a key
    that is present replaces its value in place. *)
Fixpoint dict_set (k : string) (v : json) (d : list (string * json)) : list (string * json) :=
  match d with
  | [] => [(k, v)]
  | (k', v') :: d' => if String.eqb k' k then (k, v) :: d' else (k', v') :: dict_set k v d'
  end.

Definition dict_of_pairs (pairs : list (string * json)) : list (string * json) :=
  fold_left (λ d kv, dict_set (fst kv) (snd kv) d) pairs [].

(** The recursive descent of the decoder. [parse_elements] reads the
    elements of an array from its first element on, [parse_members] the
    members of an object from the quote of its first key on. *)
Fixpoint parse_value (fuel : nat) (s : string) : option (json * string) :=
  match fuel with
  | O => None
  | S fuel' =>
      match s with
      | EmptyString => None
      | String c s' =>
          let n := N_of_ascii c in
          if (n =? 34)%N then
            match parse_string s' with
            | Some (body, rest) => Some (JStr body, rest)
            | None => None
            end
          else if (n =? 91)%N then
            match skip_ws s' with
            | String c1 rest1 =>
                if (N_of_ascii c1 =? 93)%N then Some (JArr [], rest1)
                else match parse_elements fuel' (String c1 rest1) with
                     | Some (items, rest) => Some (JArr items, rest)
                     | None => None
                     end
            | EmptyString => None
            end
          else if (n =? 123)%N then
            match skip_ws s' with
            | String c1 rest1 =>
                if (N_of_ascii c1 =? 125)%N then Some (JObj [], rest1)
                else match parse_members fuel' (String c1 rest1) with
                     | Some (pairs, rest) => Some (JObj (dict_of_pairs pairs), rest)
                     | None => None
                     end
            | EmptyString => None
            end
          else if (n =? 110)%N then
            match strip_prefix "null" s with
            | Some rest => Some (JNull, rest)
            | None => None
            end
          else if (n =? 116)%N then
            match strip_prefix "true" s with
            | Some rest => Some (JBool true, rest)
            | None => None
            end
          else if (n =? 102)%N then
            match strip_prefix "false" s with
            | Some rest => Some (JBool false, rest)
            | None => None
            end
          else
            match parse_number s with
            | Some (z, rest) => Some (JInt z, rest)
            | None => None
            end
      end
  end
with parse_elements (fuel : nat) (s : string) : option (list json * string) :=
  match fuel with
  | O => None
  | S fuel' =>
      match parse_value fuel' s with
      | Some (v, rest) =>
          match skip_ws rest with
          | String c rest1 =>
              if (N_of_ascii c =? 93)%N then Some ([v], rest1)
              else if (N_of_ascii c =? 44)%N then
                match parse_elements fuel' (skip_ws rest1) with
                | Some (vs, rest2) => Some (v :: vs, rest2)
                | None => None
                end
              else None
          | EmptyString => None
          end
      | None => None
      end
  end
with parse_members (fuel : nat) (s : string) : option (list (string * json) * string) :=
  match fuel with
  | O => None
  | S fuel' =>
      match s with
      | String q s' =>
          if (N_of_ascii q =? 34)%N then
            match parse_string s' with
            | Some (k, rest) =>
                match skip_ws rest with
                | String c rest1 =>
                    if (N_of_ascii c =? 58)%N then
                      match parse_value fuel' (skip_ws rest1) with
                      | Some (v, rest2) =>
                          match skip_ws rest2 with
                          | String c2 rest3 =>
                              if (N_of_ascii c2 =? 125)%N then Some ([(k, v)], rest3)
                              else if (N_of_ascii c2 =? 44)%N then
                                match parse_members fuel' (skip_ws rest3) with
                                | Some (kvs, rest4) => Some ((k, v) :: kvs, rest4)
                                | None => None
                                end
                              else None
                          | EmptyString => None
                          end
                      | None => None
                      end
                    else None
                | EmptyString => None
                end
            | None => None
            end
          else None
      | EmptyString => None
      end
  end.

(** [json.loads(s)]: one value, white space around it, nothing else.
    [None] stands for [JSONDecodeError]. Every step of the descent that does
    not read a character is followed by one that does, so twice the length
    of the text is fuel enough. *)
Definition loads (s : string) : option json :=
  match parse_value (2 * String.length s + 2) (skip_ws s) with
  | Some (v, rest) =>
      match skip_ws rest with
      | EmptyString => Some v
      | _ => None
      end
  | None => None
  end.

(** ** The program, over a remote service with state [W] *)

Inductive node : Type :=
  | Dir
  | File (content : string).

(** A call the shell makes on its client object. *)
Inductive Call : Type :=
  | GetChatId (name : string)
  | GetAllMessages (chat_id n : pyval)
  | GetUsers (chat_id : pyval)
  | DeleteMessages (chat_id : pyval) (ids : list Z).

Section Program.
Context {interp : Builtins} {W : Type}.

(** *** client.py *)

(** The telethon client, as far as [Client] uses it. An awaited call is a
    computation on the service. [sdk_iter_messages chat_id offset_date limit]
    is the sequence of messages the backward iteration yields. *)
Record Sdk : Type := mk_Sdk {
  sdk_get_dialogs : M W (list Dialog);
  sdk_get_messages : pyval → pyval → option string → M W (list Message);
  sdk_get_participants : pyval → M W (list User);
  sdk_delete_messages : pyval → list Z → M W (list Z);
  sdk_iter_messages : pyval → datetime → pyval → M W (list Message)
}.

(** The object the shell keeps in [self.client], with the methods the shell
    calls on it. *)
Record Facade : Type := mk_Facade {
  client_get_chat_id : string → M W pyval;
  client_get_all_messages : pyval → pyval → M W (list Message);
  client_get_users : pyval → M W (list User);
  client_delete_messages : pyval → list Z → M W pyval
}.

Record Cli : Type := mk_Cli {
  running : bool;
  current : pyval;
  limit : pyval;
  client : Facade
}.

Record State : Type := mk_State {
  self : Cli;
  world : W;
  stdout : list string;
  calls : list Call;
  fs : gmap string node;
  now : string
}.

Definition set_self (c : Cli) (s : State) : State :=
  mk_State c (world s) (stdout s) (calls s) (fs s) (now s).
Definition set_fs (f : gmap string node) (s : State) : State :=
  mk_State (self s) (world s) (stdout s) (calls s) f (now s).

(** [print(line)] *)
Definition print (line : string) : M State unit :=
  modify (λ s, mk_State (self s) (world s) (stdout s ++ [line]) (calls s) (fs s) (now s)).

(** The state after [print(line)]: the line is the only change. *)
Definition printed (line : string) (s : State) : State :=
  mk_State (self s) (world s) (stdout s ++ [line]) (calls s) (fs s) (now s).

(** An awaited call on the service, from inside the program. *)
Definition await {A} (op : M W A) : M State A := λ s,
  let '(r, w) := op (world s) in
  (r, mk_State (self s) w (stdout s) (calls s) (fs s) (now s)).

Fixpoint for_each {A} (l : list A) (body : A → M State unit) : M State unit :=
  match l with
  | [] => mret tt
  | x :: l' => body x ;; for_each l' body
  end.

Definition all_chats (sdk : Sdk) : M W (list Dialog) :=
  sdk_get_dialogs sdk.

(** The [for chat in chats] loop of [chat_by_id]. *)
Fixpoint chat_scan (name : string) (chats : list Dialog) : pyval :=
  match chats with
  | [] => PyNone
  | chat :: rest =>
      if String.eqb (dialog_name chat) name
      then PyInt (dialog_id chat)
      else chat_scan name rest
  end.

Definition chat_by_id (sdk : Sdk) (name : string) : M W pyval :=
  chats ← all_chats sdk;
  mret (chat_scan name chats).

Definition all_messages_in_chat (sdk : Sdk) (chat_id n : pyval) : M W (list Message) :=
  sdk_get_messages sdk chat_id n None.

Definition my_messages_in_chat (sdk : Sdk) (chat_id n : pyval) : M W (list Message) :=
  sdk_get_messages sdk chat_id n (Some "me").

Definition all_users (sdk : Sdk) (chat_id : pyval) : M W (list User) :=
  sdk_get_participants sdk chat_id.

(** The method awaits the delete and ends without a [return]: its value is
    [None]. *)
Definition canc_all_messages (sdk : Sdk) (chat_id : pyval) (message_ids : list Z)
  : M W pyval :=
  sdk_delete_messages sdk chat_id message_ids ;;
  mret PyNone.

Definition date_str (d : option datetime) : string :=
  match d with Some d => dt_str d | None => "None" end.

(** The body of the [async for m in iter_messages(...)] loop, over the
    messages still to come; [records] is the list built so far. *)
Fixpoint between_loop (chat_id : pyval) (ts te : datetime)
    (pending : list Message) (records : list Message) : M State (list Message) :=
  match pending with
  | [] => mret records
  | m :: pending' =>
      print ("[info]: processing message " +:+ pretty (msg_id m) +:+ " in "
             +:+ py_str chat_id +:+ " in date " +:+ date_str (msg_date m)) ;;
      match msg_date m with
      | None => raise TypeError
      | Some d =>
          if dt_ltb d ts then mret records
          else between_loop chat_id ts te pending'
                 (if dt_leb ts d && dt_leb d te then records ++ [m] else records)
      end
  end.

Definition messages_between_dates (sdk : Sdk) (chat_id : pyval)
    (ts te : datetime) (limit : pyval) : M State (list Message) :=
  pending ← await (sdk_iter_messages sdk chat_id te limit);
  between_loop chat_id ts te pending [].

(** *** cli.py *)

(** [Cli.__init__(limit, client)] *)
Definition Cli_init (limit : pyval) (client : Facade) : Cli :=
  mk_Cli true PyNone (if truthy limit then limit else PyInt 1000) client.

(** [await self.client.<method>(...)]: the call is recorded, then made. *)
Definition call {A} (c : Call) (method : Facade → M W A) : M State A := λ s,
  let '(r, w) := method (client (self s)) (world s) in
  (r, mk_State (self s) w (stdout s) (calls s ++ [c]) (fs s) (now s)).

Definition set_current (chat_id : pyval) : M State unit :=
  modify (λ s, set_self (mk_Cli (running (self s)) chat_id (limit (self s))
                                (client (self s))) s).

Definition set_running (b : bool) : M State unit :=
  modify (λ s, set_self (mk_Cli b (current (self s)) (limit (self s))
                                (client (self s))) s).

Definition cmd_sel (args : list string) : M State unit :=
  match args with
  | [] => print "Usage: select <chat-name>"
  | _ =>
      let name := join " " args in
      chat_id ← call (GetChatId name) (λ c, client_get_chat_id c name);
      if is_None chat_id then print "Chat not found."
      else
        set_current chat_id ;;
        print ("Chat selected: " +:+ name)
  end.

(** [parse_limit] returns the pair [(target, count)]. *)
Definition parse_limit (c : Cli) (args : list string) : pyval * pyval :=
  match args with
  | [] => (PyNone, PyNone)
  | a0 :: rest =>
      let target := lower a0 in
      match rest with
      | [] => (PyStr target, limit c)
      | a1 :: _ =>
          match py_int a1 with
          | Some n => (PyStr target, PyInt n)
          | None => (PyNone, PyNone)
          end
      end
  end.

Definition message_targets : list pyval :=
  [PyStr "m"; PyStr "msg"; PyStr "message"; PyStr "messages"].
Definition user_targets : list pyval :=
  [PyStr "u"; PyStr "user"; PyStr "users"].

(** [v in (a, b, ...)] *)
Definition py_in (v : pyval) (l : list pyval) : bool := bool_decide (v ∈ l).

Definition list_messages (chat_id n : pyval) : M State unit :=
  msgs ← call (GetAllMessages chat_id n) (λ c, client_get_all_messages c chat_id n);
  for_each msgs (λ m,
    print ("[id=" +:+ pretty (msg_id m) +:+ "] sender=" +:+ py_str (msg_sender_id m)
           +:+ " text=" +:+ py_str (msg_text m))).

Definition list_users (chat_id : pyval) : M State unit :=
  users ← call (GetUsers chat_id) (λ c, client_get_users c chat_id);
  for_each users (λ u,
    print ("[id=" +:+ pretty (user_id u) +:+ "] username=" +:+ py_str (user_username u)
           +:+ " first_name=" +:+ py_str (user_first_name u)
           +:+ " last_name=" +:+ py_str (user_last_name u))).

(** [os.makedirs(path, exist_ok=True)] *)
Definition makedirs (path : string) : M State unit := λ s,
  match fs s !! path with
  | Some (File _) => (Raise FileExistsError, s)
  | _ => (Ok tt, set_fs (<[path := Dir]> (fs s)) s)
  end.

(** [with open(path, "w") as f: json.dump(v, f, indent=4, ensure_ascii=False)] *)
Definition dump_to (path : string) (v : json) : M State unit := λ s,
  match fs s !! path with
  | Some Dir => (Raise IsADirectoryError, s)
  | _ => (Ok tt, set_fs (<[path := File (dumps v)]> (fs s)) s)
  end.

(** One element of the list [save_messages] builds. *)
Definition message_record (m : Message) : json :=
  JObj [("id", JInt (msg_id m));
        ("from", to_json (msg_sender_id m));
        ("text", to_json (msg_text m));
        ("date", match msg_date m with
                 | Some d => JStr (isoformat d)
                 | None => JNull
                 end)].

Definition user_record (u : User) : json :=
  JObj [("id", JInt (user_id u));
        ("username", to_json (user_username u));
        ("first_name", to_json (user_first_name u));
        ("last_name", to_json (user_last_name u))].

Definition messages_path (ts : string) : string := "out/messages_" +:+ ts +:+ ".json".
Definition users_path (ts : string) : string := "out/users_" +:+ ts +:+ ".json".

Definition save_messages (chat_id n : pyval) : M State unit :=
  msgs ← call (GetAllMessages chat_id n) (λ c, client_get_all_messages c chat_id n);
  let data := List.map message_record msgs in
  makedirs "out" ;;
  ts ← gets now;
  let path := messages_path ts in
  dump_to path (JArr data) ;;
  print ("Saved " +:+ pretty (List.length data) +:+ " messages to " +:+ path).

Definition save_users (chat_id : pyval) : M State unit :=
  users ← call (GetUsers chat_id) (λ c, client_get_users c chat_id);
  let data := List.map user_record users in
  makedirs "out" ;;
  ts ← gets now;
  let path := users_path ts in
  dump_to path (JArr data) ;;
  print ("Saved " +:+ pretty (List.length data) +:+ " users to " +:+ path).

(** [with open(path) as f: json.load(f)], the re-reading of an export. *)
Definition load_from (path : string) : M State json := λ s,
  match fs s !! path with
  | Some (File content) =>
      match loads content with
      | Some v => (Ok v, s)
      | None => (Raise JSONDecodeError, s)
      end
  | Some Dir => (Raise IsADirectoryError, s)
  | None => (Raise FileNotFoundError, s)
  end.

Definition delete_messages (chat_id n : pyval) : M State unit :=
  msgs ← call (GetAllMessages chat_id n) (λ c, client_get_all_messages c chat_id n);
  let ids := List.map msg_id msgs in
  match ids with
  | [] => print "No messages to delete."
  | _ =>
      deleted ← call (DeleteMessages chat_id ids) (λ c, client_delete_messages c chat_id ids);
      print ("Deleted " +:+ py_str deleted +:+ " messages")
  end.

Definition usage_list : string := "Usage: list messages|users [N]".
Definition usage_save : string := "Usage: save messages|users [N]".
Definition usage_delete : string := "Usage: delete messages [N]".

Definition cmd_list (args : list string) : M State unit :=
  c ← gets self;
  let '(target, count) := parse_limit c args in
  if negb (truthy target) then print usage_list
  else if negb (truthy (current c)) then print "No chat selected"
  else if py_in target message_targets then list_messages (current c) count
  else if py_in target user_targets then list_users (current c)
  else print "Unknown list target. Use messages|users.".

Definition cmd_save (args : list string) : M State unit :=
  c ← gets self;
  let '(target, count) := parse_limit c args in
  if negb (truthy target) then print usage_save
  else if negb (truthy (current c)) then print "No chat selected"
  else if py_in target message_targets then save_messages (current c) count
  else if py_in target user_targets then save_users (current c)
  else print "Unknown save target. Use messages|users.".

Definition cmd_delete (args : list string) : M State unit :=
  c ← gets self;
  let '(target, count) := parse_limit c args in
  if negb (truthy target) then print usage_delete
  else if negb (truthy (current c)) then print "No chat selected"
  else if py_in target message_targets then delete_messages (current c) count
  else print "Unknown delete target. Only 'messages' is supported.".

Definition help_text : string :=
"
Commands:
  select <chat-name>

  list messages [N]
  list users [N]

  save messages [N]
  save users [N]

  delete messages [N]

  help
  exit
".

Definition cmd_help : M State unit := print help_text.

(** The body of the loop of [run], from the split line on. *)
Definition dispatch (parts : list string) : M State unit :=
  match parts with
  | [] => raise IndexError
  | p :: args =>
      let cmd := lower p in
      if String.eqb cmd "select" then cmd_sel args
      else if String.eqb cmd "list" then cmd_list args
      else if String.eqb cmd "save" then cmd_save args
      else if String.eqb cmd "delete" then cmd_delete args
      else if String.eqb cmd "exit" then set_running false
      else if String.eqb cmd "help" then cmd_help
      else print "Unknown command. Type 'help'."
  end.

(** *** The two files together *)

(** The specification's facade: each call of the shell bound to the method
    of [Client] that plays that role. The two files do not agree on the
    names: the shell calls [get_chat_id], [get_all_messages], [get_users]
    and [delete_messages], the class defines [chat_by_id],
    [all_messages_in_chat], [all_users] and [canc_all_messages]. *)
Definition Client_by_role (sdk : Sdk) : Facade :=
  mk_Facade (chat_by_id sdk) (all_messages_in_chat sdk) (all_users sdk)
            (canc_all_messages sdk).

(** A [Client] instance put in [self.client] as it is: the class defines
    none of the four names, each lookup raises [AttributeError]. *)
Definition Client_methods : list string :=
  ["__init__"; "connect"; "me"; "disconnect"; "all_chats"; "chat_by_id";
   "all_messages_in_chat"; "my_messages_in_chat"; "all_users";
   "canc_all_messages"; "messages_between_dates"].

Definition getattr {A} (attr : string) (method : M W A) : M W A :=
  if bool_decide (attr ∈ Client_methods) then method else raise (AttributeError attr).

Definition Client_as_is (sdk : Sdk) : Facade :=
  mk_Facade
    (λ name, getattr "get_chat_id" (chat_by_id sdk name))
    (λ chat_id n, getattr "get_all_messages" (all_messages_in_chat sdk chat_id n))
    (λ chat_id, getattr "get_users" (all_users sdk chat_id))
    (λ chat_id ids, getattr "delete_messages" (canc_all_messages sdk chat_id ids)).

End Program.

Arguments Sdk : clear implicits.
Arguments Facade : clear implicits.
Arguments Cli : clear implicits.
Arguments State : clear implicits.

(** ** What the specification measures the date-range fetch against *)

(** The message is strictly older than the start of the range. *)
Definition too_old (ts : datetime) (m : Message) : bool :=
  match msg_date m with Some d => dt_ltb d ts | None => false end.

(** The message's timestamp lies in [[ts, te]]. *)
Definition in_range (ts te : datetime) (m : Message) : bool :=
  match msg_date m with Some d => dt_leb ts d && dt_leb d te | None => false end.

(** The elements met before the first one that satisfies [p], and the
    elements met up to and including it. *)
Fixpoint before_first {A} (p : A → bool) (l : list A) : list A :=
  match l with
  | [] => []
  | x :: l' => if p x then [] else x :: before_first p l'
  end.

Fixpoint through_first {A} (p : A → bool) (l : list A) : list A :=
  match l with
  | [] => []
  | x :: l' => if p x then [x] else x :: through_first p l'
  end.

Definition info_line (chat_id : pyval) (m : Message) : string :=
  "[info]: processing message " +:+ pretty (msg_id m) +:+ " in "
  +:+ py_str chat_id +:+ " in date " +:+ date_str (msg_date m).

(** ** A service held in memory, to run the program on *)

Record Account : Type := mk_Account {
  acc_dialogs : list Dialog;
  acc_history : list Message;
  acc_members : list User
}.

Definition take_limit (n : pyval) (l : list Message) : list Message :=
  match n with
  | PyInt k => take (Z.to_nat k) l
  | _ => l
  end.

Definition not_after (te : datetime) (m : Message) : bool :=
  match msg_date m with Some d => dt_leb d te | None => true end.

Definition memory_delete (ids : list Z) : M Account (list Z) := λ a,
  let kept := List.filter (λ m, negb (bool_decide (msg_id m ∈ ids))) (acc_history a) in
  (Ok [Z.of_nat (List.length (acc_history a) - List.length kept)],
   mk_Account (acc_dialogs a) kept (acc_members a)).

Definition memory_sdk : Sdk Account :=
  mk_Sdk
    (gets acc_dialogs)
    (λ _ n _, gets (λ a, take_limit n (acc_history a)))
    (λ _, gets acc_members)
    (λ _ ids, memory_delete ids)
    (λ _ te n, gets (λ a, take_limit n (List.filter (not_after te) (acc_history a)))).

(** A facade that answers as the specification words it: its delete
    reports how many messages it removed. *)
Definition memory_facade : Facade Account :=
  mk_Facade
    (chat_by_id memory_sdk)
    (all_messages_in_chat memory_sdk)
    (all_users memory_sdk)
    (λ _ ids, counts ← memory_delete ids; mret (PyInt (foldr Z.add 0 counts))).

Definition utc (y mo d h mi s : Z) : datetime := mk_datetime y mo d h mi s 0.

Definition demo_account : Account :=
  mk_Account
    [mk_Dialog "Family" 0; mk_Dialog "Team Chat" 42; mk_Dialog "team chat" 43;
     mk_Dialog "Team Chat" 44]
    [mk_Message 13 (PyInt 7) (PyStr "see you") (Some (utc 2024 3 9 18 0 0));
     mk_Message 12 (PyInt 8) (PyStr "ok") (Some (utc 2024 3 5 9 30 0));
     mk_Message 10 (PyInt 7) (PyStr "hello") (Some (utc 2024 2 1 8 0 0))]
    [mk_User 7 (PyStr "ada") (PyStr "Ada") PyNone].

(** An account whose history has a message without sender, text and date. *)
Definition service_account : Account :=
  mk_Account
    [mk_Dialog "Team Chat" 42]
    [mk_Message 21 (PyInt 7) (PyStr "line one
line two") (Some (mk_datetime 2024 3 9 18 0 0 250000));
     mk_Message 20 PyNone PyNone None]
    [].


Definition empty_account : Account := mk_Account [mk_Dialog "Team Chat" 42] [] [].

Definition start_state {W} (c : Cli W) (w : W) : State W :=
  mk_State c w [] [] ∅ "20240310120000".

Definition new_cli : Cli Account := Cli_init PyNone memory_facade.

(** The shell with the chat [chat_id] selected. *)
Definition selected (chat_id : pyval) (cl : Facade Account) : Cli Account :=
  mk_Cli true chat_id (PyInt 1000) cl.

(** C8, as the specification words it: the stored limit is a positive
    integer, it is the supplied limit when that one is a positive integer,
    and it is 1000 for every other supplied limit. *)
Definition default_limit_as_specified (supplied stored : pyval) : Prop :=
  (∃ n, stored = PyInt n ∧ 0 < n)
  ∧ (∀ n, supplied = PyInt n → 0 < n → stored = supplied)
  ∧ ((¬ ∃ n, supplied = PyInt n ∧ 0 < n) → stored = PyInt 1000).

(** ** The JSON values the round trip is stated for *)

(** A text that starts with a character a value can start with: not white
    space, and not a closing bracket or brace. *)
Definition value_head (s : string) : bool :=
  match s with
  | String c _ =>
      let n := N_of_ascii c in
      negb (json_space c) && negb (n =? 93)%N && negb (n =? 125)%N
  | EmptyString => false
  end.

(** A character an integer can start with. *)
Definition number_head (c : ascii) : bool :=
  match digit_of c with
  | Some _ => true
  | None => (N_of_ascii c =? 45)%N
  end.


(** The keys of every object are distinct, as those of a dict are. *)
Fixpoint wf_json (v : json) : Prop :=
  match v with
  | JArr items => foldr (λ x P, wf_json x ∧ P) True items
  | JObj members =>
      NoDup (members.*1)
      ∧ foldr (λ kv P, wf_json (snd kv) ∧ P) True members
  | _ => True
  end.

(** Fuel that reading the text of [v] back takes. *)
Fixpoint need (v : json) : nat :=
  match v with
  | JArr items => S (foldr (λ x n, S (Nat.max (need x) n)) O items)
  | JObj members => S (foldr (λ kv n, S (Nat.max (need (snd kv)) n)) O members)
  | _ => 1%nat
  end.

(** Reading the text of [v] back gives [v], whatever follows the text. *)
Definition reads_back (v : json) : Prop :=
  ∀ fuel level rest,
    (need v ≤ fuel)%nat →
    number_goes_on rest = false →
    parse_value fuel (dumps_at level v +:+ rest) = Some (v, rest).

(** ** The loop of the shell *)

(** [shlex.split(line)]: the words of the line, or the message of the
    [ValueError] it raises. *)
Inductive split_result : Type :=
  | Parts (parts : list string)
  | ValueError (msg : string).

(** Where the reader of [shlex] is: between words, in a word, inside a
    quotation opened by [q], or after a backslash met in a word
    ([InEscape None]) or inside the quotation [q] ([InEscape (Some q)]). *)
Inductive lexst : Type :=
  | InBlank
  | InWord
  | InQuote (q : ascii)
  | InEscape (escaped : option ascii).

Definition shlex_space (c : ascii) : bool :=
  let n := N_of_ascii c in
  ((n =? 32) || (n =? 9) || (n =? 13) || (n =? 10))%N.

Definition shlex_quote (c : ascii) : bool :=
  let n := N_of_ascii c in ((n =? 39) || (n =? 34))%N.

Definition shlex_escape (c : ascii) : bool := (N_of_ascii c =? 92)%N.

(** [token + c] *)
Definition snoc_char (token : string) (c : ascii) : string :=
  token +:+ String c "".

(** A word that ends: it is kept unless it is empty and was not quoted. *)
Definition emit (token : string) (quoted : bool) (r : split_result) : split_result :=
  if negb (String.eqb token "") || quoted then
    match r with
    | Parts parts => Parts (token :: parts)
    | ValueError msg => ValueError msg
    end
  else r.

(** The reader in POSIX mode, splitting on white space only, without
    comments: [token] is the word being read, [quoted] tells whether a
    quotation was met in it. *)
Fixpoint read_tokens (st : lexst) (token : string) (quoted : bool) (s : string)
  : split_result :=
  match s with
  | EmptyString =>
      match st with
      | InBlank => Parts []
      | InWord => emit token quoted (Parts [])
      | InQuote _ => ValueError "No closing quotation"
      | InEscape _ => ValueError "No escaped character"
      end
  | String c s' =>
      match st with
      | InBlank =>
          if shlex_space c then read_tokens InBlank "" false s'
          else if shlex_escape c then read_tokens (InEscape None) "" false s'
          else if shlex_quote c then read_tokens (InQuote c) "" false s'
          else read_tokens InWord (String c "") false s'
      | InQuote q =>
          if Ascii.eqb c q then read_tokens InWord token true s'
          else if shlex_escape c && (N_of_ascii q =? 34)%N
          then read_tokens (InEscape (Some q)) token true s'
          else read_tokens (InQuote q) (snoc_char token c) true s'
      | InEscape None =>
          read_tokens InWord (snoc_char token c) quoted s'
      | InEscape (Some q) =>
          let token' :=
            if negb (shlex_escape c) && negb (Ascii.eqb c q)
            then snoc_char token (ascii_of_N 92) else token in
          read_tokens (InQuote q) (snoc_char token' c) quoted s'
      | InWord =>
          if shlex_space c then emit token quoted (read_tokens InBlank "" false s')
          else if shlex_quote c then read_tokens (InQuote c) token quoted s'
          else if shlex_escape c then read_tokens (InEscape None) token quoted s'
          else read_tokens InWord (snoc_char token c) quoted s'
      end
  end.

Definition shlex_split (line : string) : split_result :=
  read_tokens InBlank "" false line.

(** How [run] ends: it returns, or an exception leaves it, either the
    [EOFError] of [input] at the end of the input or the exception of a
    command. [unread] is what is left of the input. *)
Inductive loop_exn : Type :=
  | EOFError
  | FromCommand (e : exn).

Inductive loop_end : Type :=
  | Returns (unread : list string)
  | Raises (e : loop_exn) (unread : list string).

Section Loop.
Context {interp : Builtins} {W : Type}.

(** [input("> ")] writes its prompt; the prompt is recorded as an entry of
    [stdout] of its own. *)
Definition prompted (s : State W) : State W :=
  mk_State (self s) (world s) (stdout s ++ ["> "]) (calls s) (fs s) (now s).

(** [Cli.run], over the lines the user types. *)
Fixpoint run (stdin : list string) (s : State W) : loop_end * State W :=
  if running (self s) then
    match stdin with
    | [] => (Raises EOFError [], prompted s)
    | line :: rest =>
        let s1 := prompted s in
        if String.eqb line "" then run rest s1
        else
          match shlex_split line with
          | ValueError msg => run rest (printed ("Parse error: " +:+ msg) s1)
          | Parts parts =>
              match dispatch parts s1 with
              | (Ok _, s2) => run rest s2
              | (Raise e, s2) => (Raises (FromCommand e) rest, s2)
              end
          end
    end
  else (Returns stdin, s).

End Loop.

(** A word without white space, quotes and backslashes, as [shlex] reads it
    unchanged. *)
Definition plain_char (c : ascii) : bool :=
  negb (shlex_space c) && negb (shlex_quote c) && negb (shlex_escape c).

Fixpoint plain (w : string) : bool :=
  match w with
  | EmptyString => true
  | String c w' => plain_char c && plain w'
  end.

Definition plain_word (w : string) : bool :=
  negb (String.eqb w "") && plain w.

(** A character that a quotation keeps as it is, whichever quote opened
    it. *)
Definition inner_char (c : ascii) : bool :=
  negb (shlex_quote c) && negb (shlex_escape c).

Fixpoint all_inner (s : string) : bool :=
  match s with
  | EmptyString => true
  | String c s' => inner_char c && all_inner s'
  end.

Fixpoint all_space (s : string) : bool :=
  match s with
  | EmptyString => true
  | String c s' => shlex_space c && all_space s'
  end.

(** ** What the commands print and write *)

(** The line [list messages] prints for a message, and [list users] for a
    participant. *)
Definition message_line (m : Message) : string :=
  "[id=" +:+ pretty (msg_id m) +:+ "] sender=" +:+ py_str (msg_sender_id m)
  +:+ " text=" +:+ py_str (msg_text m).

Definition user_line (u : User) : string :=
  "[id=" +:+ pretty (user_id u) +:+ "] username=" +:+ py_str (user_username u)
  +:+ " first_name=" +:+ py_str (user_first_name u)
  +:+ " last_name=" +:+ py_str (user_last_name u).

(** What an export does once the data is fetched: [what] is "messages" or
    "users", [path] the file of the export. *)
Definition write_export {W} (path what : string) (data : list json) (s : State W)
  : result unit * State W :=
  match fs s !! "out" with
  | Some (File _) => (Raise FileExistsError, s)
  | _ =>
      let fs1 := <["out" := Dir]> (fs s) in
      match fs1 !! path with
      | Some Dir => (Raise IsADirectoryError, set_fs fs1 s)
      | _ =>
          (Ok tt,
           mk_State (self s) (world s)
             (stdout s ++ ["Saved " +:+ pretty (List.length data) +:+ " " +:+ what
                           +:+ " to " +:+ path])
             (calls s) (<[path := File (dumps (JArr data))]> fs1) (now s))
      end
  end.

(** The state after the call [c] on the client left the service in [w]. *)
Definition called {W} (c : Call) (w : W) (s : State W) : State W :=
  mk_State (self s) w (stdout s) (calls s ++ [c]) (fs s) (now s).

(** The messages of a traversal come newest first: none is newer than one
    met before it. *)
Definition newest_first (l : list Message) : Prop :=
  ∀ i j mi mj di dj,
    (i < j)%nat → l !! i = Some mi → l !! j = Some mj →
    msg_date mi = Some di → msg_date mj = Some dj →
    dt_leb dj di = true.

(** ** Running computations *)

Ltac run :=
  repeat (progress (unfold mbind, M_bind, mret, M_ret, raise, gets, modify,
                      print, await, call, set_current, set_running, set_self,
                      set_fs in *; cbn in *)).

(** * client.py *)

Section ClientFacts.
Context {interp : Builtins} {W : Type}.
Implicit Types (sdk : Sdk W) (s : State W) (w : W).

Lemma chat_scan_find name (chats : list Dialog) :
  chat_scan name chats =
  match list_find (λ c, dialog_name c = name) chats with
  | Some (_, c) => PyInt (dialog_id c)
  | None => PyNone
  end.
Proof.
  induction chats as [|c chats IH]; [done|]. cbn.
  destruct (String.eqb_spec (dialog_name c) name) as [Heq|Hne].
  - rewrite decide_True by done. done.
  - rewrite decide_False by done. rewrite IH.
    destruct (list_find _ chats) as [[i c']|]; done.
Qed.

Lemma between_loop_spec chat_id ts te (pending records : list Message) s :
  Forall (λ m, is_Some (msg_date m)) pending →
  between_loop chat_id ts te pending records s =
  (Ok (records ++ List.filter (in_range ts te) (before_first (too_old ts) pending)),
   mk_State (self s) (world s)
     (stdout s ++ List.map (info_line chat_id) (through_first (too_old ts) pending))
     (calls s) (fs s) (now s)).
Proof.
  intros Hdated. revert records s.
  induction Hdated as [|m pending [d Hd] _ IH]; intros records s.
  - cbn. rewrite !app_nil_r. by destruct s.
  - cbn [between_loop]. run. unfold too_old, in_range, info_line.
    rewrite !Hd. cbn. destruct (dt_ltb d ts) eqn:Hold; cbn; rewrite ?Hd.
    + by rewrite app_nil_r.
    + rewrite IH. cbn. rewrite ?Hd. cbn.
      destruct (dt_leb ts d && dt_leb d te); cbn;
        by rewrite <-?app_assoc.
Qed.




(** C4. Chat resolution scans the account's chat list in order and returns
    the identifier of the first chat whose name is the requested name,
    character for character; it returns [None] when no chat has that
    name. *)
Theorem chat_by_id_first_match sdk name w chats w' :
  sdk_get_dialogs sdk w = (Ok chats, w') →
  (∀ i c, chats !! i = Some c → dialog_name c = name →
     (∀ j c', chats !! j = Some c' → (j < i)%nat → dialog_name c' ≠ name) →
     chat_by_id sdk name w = (Ok (PyInt (dialog_id c)), w'))
  ∧ ((∀ c, c ∈ chats → dialog_name c ≠ name) →
     chat_by_id sdk name w = (Ok PyNone, w')).
Proof.
  intros Hdialogs. unfold chat_by_id, all_chats. run. rewrite Hdialogs.
  rewrite chat_scan_find. split.
  - intros i c Hi Hname Hleast.
    assert (list_find (λ c, dialog_name c = name) chats = Some (i, c)) as ->; [|done].
    apply list_find_Some. eauto.
  - intros Hnone.
    assert (list_find (λ c, dialog_name c = name) chats = None) as ->; [|done].
    apply list_find_None, Forall_forall. auto.
Qed.

(** The scan compares names exactly: a name that differs only in case does
    not match. *)
Lemma chat_scan_case_sensitive :
  chat_scan "team chat" [mk_Dialog "Team Chat" 42] = PyNone
  ∧ chat_scan "Team Chat" [mk_Dialog "Team Chat" 42] = PyInt 42.
Proof. done. Qed.

(** The delete of [Client] gives back [None], whatever the service
    reports. *)
Lemma canc_all_messages_returns_None sdk chat_id ids w counts w' :
  sdk_delete_messages sdk chat_id ids w = (Ok counts, w') →
  canc_all_messages sdk chat_id ids w = (Ok PyNone, w').
Proof. intros H. unfold canc_all_messages. run. by rewrite H. Qed.

End ClientFacts.

(** * cli.py *)

Section CliFacts.
Context {interp : Builtins} {W : Type}.
Implicit Types (s : State W) (c : Cli W) (w : W) (args : list string).

(** C3. [parse_limit] on an empty argument list gives (None, None); on one
    argument, that argument in lower case and the configured limit; on two
    or more, the first argument in lower case and the second read as an
    integer, and (None, None) when the second is not an integer, the target
    being dropped with it: [list], [save] and [delete] then print their
    usage line and do nothing else. *)
Theorem parse_limit_spec c :
  parse_limit c [] = (PyNone, PyNone)
  ∧ (∀ a, parse_limit c [a] = (PyStr (lower a), limit c))
  ∧ (∀ a b rest n, py_int b = Some n →
       parse_limit c (a :: b :: rest) = (PyStr (lower a), PyInt n))
  ∧ (∀ a b rest, py_int b = None →
       parse_limit c (a :: b :: rest) = (PyNone, PyNone)
       ∧ ∀ s, cmd_list (a :: b :: rest) s = (Ok tt, printed usage_list s)
            ∧ cmd_save (a :: b :: rest) s = (Ok tt, printed usage_save s)
            ∧ cmd_delete (a :: b :: rest) s = (Ok tt, printed usage_delete s)).
Proof.
  split_and!; [done..| |].
  - intros a b rest n Hn. cbn. by rewrite Hn.
  - intros a b rest Hb. split; [cbn; by rewrite Hb|].
    intros s. unfold cmd_list, cmd_save, cmd_delete. run. by rewrite Hb.
Qed.

(** What [select] does, by the answer of the resolution. *)
Lemma cmd_sel_run args s :
  args ≠ [] →
  cmd_sel args s =
  match client_get_chat_id (client (self s)) (join " " args) (world s) with
  | (Ok chat_id, w) =>
      if is_None chat_id
      then (Ok tt, mk_State (self s) w (stdout s ++ ["Chat not found."])
                     (calls s ++ [GetChatId (join " " args)]) (fs s) (now s))
      else (Ok tt, mk_State (mk_Cli (running (self s)) chat_id (limit (self s))
                                    (client (self s)))
                     w (stdout s ++ ["Chat selected: " +:+ join " " args])
                     (calls s ++ [GetChatId (join " " args)]) (fs s) (now s))
  | (Raise e, w) =>
      (Raise e, mk_State (self s) w (stdout s) (calls s ++ [GetChatId (join " " args)])
                         (fs s) (now s))
  end.
Proof.
  intros Hargs. destruct args as [|a args]; [done|].
  unfold cmd_sel. run.
  destruct (client_get_chat_id _ _ _) as [[chat_id|e] w]; [|done].
  by destruct chat_id.
Qed.

(** With the shell's calls bound to [Client] by role, the resolution a
    [select] asks for is the scan of [chat_by_id]. *)
Lemma cmd_sel_by_role (sdk : Sdk W) args s chats w :
  args ≠ [] →
  client (self s) = Client_by_role sdk →
  sdk_get_dialogs sdk (world s) = (Ok chats, w) →
  client_get_chat_id (client (self s)) (join " " args) (world s)
  = (Ok (chat_scan (join " " args) chats), w).
Proof.
  intros _ -> Hdialogs. cbn. unfold chat_by_id, all_chats. run.
  by rewrite Hdialogs.
Qed.

(** C5. When the resolution of a [select] finds no chat, the shell prints
    "Chat not found." and the selection stays what it was; and whenever a
    [select] leaves another selection than it found, the resolution
    returned an identifier and that identifier is the new selection. *)
Theorem cmd_sel_not_found args s :
  (∀ w', args ≠ [] →
     client_get_chat_id (client (self s)) (join " " args) (world s) = (Ok PyNone, w') →
     ∃ s', cmd_sel args s = (Ok tt, s')
       ∧ stdout s' = stdout s ++ ["Chat not found."]
       ∧ current (self s') = current (self s)
       ∧ self s' = self s)
  ∧ (∀ r s', cmd_sel args s = (r, s') →
     current (self s') ≠ current (self s) →
     ∃ chat_id w', client_get_chat_id (client (self s)) (join " " args) (world s)
                   = (Ok chat_id, w')
       ∧ chat_id ≠ PyNone ∧ current (self s') = chat_id).
Proof.
  split.
  - intros w' Hargs Hres. rewrite cmd_sel_run, Hres by done. cbn. eauto.
  - intros r s' Hrun Hchanged. destruct args as [|a args].
    { cbn in Hrun. unfold print, modify in Hrun. by simplify_eq. }
    rewrite cmd_sel_run in Hrun by done.
    destruct (client_get_chat_id _ _ _) as [[chat_id|e] w]; [|by simplify_eq].
    exists chat_id, w. destruct chat_id; cbn in Hrun; by simplify_eq.
Qed.

(** What [delete_messages] does, by the answers of the facade. *)
Lemma delete_messages_run chat_id n s :
  delete_messages chat_id n s =
  match client_get_all_messages (client (self s)) chat_id n (world s) with
  | (Ok msgs, w) =>
      let s1 := mk_State (self s) w (stdout s) (calls s ++ [GetAllMessages chat_id n])
                         (fs s) (now s) in
      match msgs with
      | [] => (Ok tt, printed "No messages to delete." s1)
      | _ =>
          let ids := List.map msg_id msgs in
          match client_delete_messages (client (self s)) chat_id ids w with
          | (Ok deleted, w2) =>
              (Ok tt, mk_State (self s) w2
                        (stdout s ++ ["Deleted " +:+ py_str deleted +:+ " messages"])
                        (calls s ++ [GetAllMessages chat_id n; DeleteMessages chat_id ids])
                        (fs s) (now s))
          | (Raise e, w2) =>
              (Raise e, mk_State (self s) w2 (stdout s)
                          (calls s ++ [GetAllMessages chat_id n; DeleteMessages chat_id ids])
                          (fs s) (now s))
          end
      end
  | (Raise e, w) =>
      (Raise e, mk_State (self s) w (stdout s) (calls s ++ [GetAllMessages chat_id n])
                         (fs s) (now s))
  end.
Proof.
  unfold delete_messages. run.
  destruct (client_get_all_messages _ _ _ _) as [[msgs|e] w]; [|done].
  destruct msgs as [|m msgs]; [done|]. cbn.
  destruct (client_delete_messages _ _ _ _) as [[deleted|e] w2];
    by rewrite <-app_assoc.
Qed.

(** A [delete] that reaches the operation: the target names messages and
    the selection is truthy. *)
Lemma cmd_delete_reaches args s target count :
  parse_limit (self s) args = (target, count) →
  py_in target message_targets = true →
  truthy (current (self s)) = true →
  cmd_delete args s = delete_messages (current (self s)) count s.
Proof.
  intros Hparse Htarget Hcur. unfold cmd_delete. run. rewrite Hparse, Hcur.
  rewrite Htarget.
  assert (truthy target = true) as ->; [|done].
  apply bool_decide_eq_true in Htarget. unfold message_targets in Htarget.
  repeat (apply elem_of_cons in Htarget as [->|Htarget]; [done|]).
  by apply elem_of_nil in Htarget.
Qed.

(** The shell's side of a delete that finds messages: both calls are made
    with the selected chat, the delete with the identifiers fetched, and
    the line printed shows what the facade's delete returned. *)
Lemma cmd_delete_some args s target count m msgs w deleted w2 :
  parse_limit (self s) args = (target, count) →
  py_in target message_targets = true →
  truthy (current (self s)) = true →
  client_get_all_messages (client (self s)) (current (self s)) count (world s)
    = (Ok (m :: msgs), w) →
  client_delete_messages (client (self s)) (current (self s))
    (List.map msg_id (m :: msgs)) w = (Ok deleted, w2) →
  cmd_delete args s =
  (Ok tt, mk_State (self s) w2
            (stdout s ++ ["Deleted " +:+ py_str deleted +:+ " messages"])
            (calls s ++ [GetAllMessages (current (self s)) count;
                         DeleteMessages (current (self s)) (List.map msg_id (m :: msgs))])
            (fs s) (now s)).
Proof.
  intros Hparse Htarget Hcur Hfetch Hdelete.
  erewrite cmd_delete_reaches by done.
  rewrite delete_messages_run, Hfetch. cbn zeta. cbn match.
  by rewrite Hdelete.
Qed.

(** C6. A [delete] on a selected chat whose fetch returns no message prints
    "No messages to delete." and makes no other call than the fetch: the
    facade's delete is not called, and the service is left as the fetch left
    it. *)
Theorem cmd_delete_nothing args s target count w :
  parse_limit (self s) args = (target, count) →
  py_in target message_targets = true →
  truthy (current (self s)) = true →
  client_get_all_messages (client (self s)) (current (self s)) count (world s)
    = (Ok [], w) →
  cmd_delete args s =
  (Ok tt, mk_State (self s) w (stdout s ++ ["No messages to delete."])
            (calls s ++ [GetAllMessages (current (self s)) count])
            (fs s) (now s)).
Proof.
  intros Hparse Htarget Hcur Hfetch.
  erewrite cmd_delete_reaches by done.
  by rewrite delete_messages_run, Hfetch.
Qed.

(** With a target that parsed and a selection that is not truthy, [list],
    [save] and [delete] print "No chat selected" and stop: nothing else of
    the state changes, so no call is made. *)
Lemma no_selection_aborts args s target count :
  parse_limit (self s) args = (target, count) →
  truthy target = true →
  truthy (current (self s)) = false →
  cmd_list args s = (Ok tt, printed "No chat selected" s)
  ∧ cmd_save args s = (Ok tt, printed "No chat selected" s)
  ∧ cmd_delete args s = (Ok tt, printed "No chat selected" s).
Proof.
  intros Hparse Htarget Hcur. unfold cmd_list, cmd_save, cmd_delete. run.
  by rewrite Hparse, Htarget, Hcur.
Qed.


(** The arguments from which [parse_limit] gets a target: a first word
    that is not empty, and then either nothing or a count that [int]
    reads. *)
Lemma parse_limit_target c (t : string) (more : list string) :
  lower t ≠ "" →
  more = [] ∨ (∃ n k rest, more = n :: rest ∧ py_int n = Some k) →
  ∃ count, parse_limit c (t :: more) = (PyStr (lower t), count)
    ∧ truthy (PyStr (lower t)) = true.
Proof.
  intros Ht Hmore.
  assert (truthy (PyStr (lower t)) = true) as Htruthy.
  { cbn. by destruct (String.eqb_spec (lower t) ""). }
  destruct Hmore as [->|(n & k & rest & -> & Hn)].
  - by exists (limit c).
  - exists (PyInt k). cbn [parse_limit]. by rewrite Hn.
Qed.

(** C7, restricted. With no chat selected, a [list], [save] or [delete]
    whose target is not empty and whose count, if one is given, is an
    integer prints "No chat selected" and ends: the line is the only change
    of the state, so the record of calls and the service are what they
    were. *)
Theorem no_chat_selected (t : string) (more : list string) s :
  lower t ≠ "" →
  more = [] ∨ (∃ n k rest, more = n :: rest ∧ py_int n = Some k) →
  current (self s) = PyNone →
  cmd_list (t :: more) s = (Ok tt, printed "No chat selected" s)
  ∧ cmd_save (t :: more) s = (Ok tt, printed "No chat selected" s)
  ∧ cmd_delete (t :: more) s = (Ok tt, printed "No chat selected" s)
  ∧ calls (printed "No chat selected" s) = calls s
  ∧ world (printed "No chat selected" s) = world s.
Proof.
  intros Ht Hmore Hcur.
  destruct (parse_limit_target (self s) t more Ht Hmore) as (count & Hparse & Htarget).
  destruct (no_selection_aborts (t :: more) s (PyStr (lower t)) count)
    as (Hl & Hs & Hd); [done|done|by rewrite Hcur|done].
Qed.

(** C8, as the code has it. The stored limit is the supplied one when the
    supplied one is truthy, and 1000 otherwise: 1000 for a missing limit and
    for 0, the supplied integer for every other integer, so a positive
    integer whenever the supplied limit is missing, 0 or positive. *)
Theorem Cli_init_limit (supplied : pyval) (cl : Facade W) :
  limit (Cli_init supplied cl) = (if truthy supplied then supplied else PyInt 1000)
  ∧ (supplied = PyNone ∨ supplied = PyInt 0 → limit (Cli_init supplied cl) = PyInt 1000)
  ∧ (∀ n, supplied = PyInt n → n ≠ 0 → limit (Cli_init supplied cl) = PyInt n)
  ∧ (supplied = PyNone ∨ (∃ n, supplied = PyInt n ∧ 0 ≤ n) →
     ∃ n, limit (Cli_init supplied cl) = PyInt n ∧ 0 < n).
Proof.
  split_and!; [done|..].
  - by intros [->| ->].
  - intros n -> Hn. cbn. by rewrite (proj2 (Z.eqb_neq n 0)).
  - intros [->|(n & -> & Hn)]; cbn.
    + exists 1000. done.
    + destruct (Z.eqb_spec n 0) as [->|Hne]; cbn.
      * exists 1000. done.
      * exists n. split; [done|lia].
Qed.


End CliFacts.

(** * The program on the service in memory *)



(** A run on the demo account: the two messages of March are returned,
    newest first, and the message of February ends the loop. *)
Example messages_between_dates_demo :
  fst (messages_between_dates memory_sdk (PyInt 42) (utc 2024 3 1 0 0 0)
         (utc 2024 3 31 0 0 0) PyNone (start_state new_cli demo_account))
  = Ok [mk_Message 13 (PyInt 7) (PyStr "see you") (Some (utc 2024 3 9 18 0 0));
        mk_Message 12 (PyInt 8) (PyStr "ok") (Some (utc 2024 3 5 9 30 0))].
Proof. vm_compute. reflexivity. Qed.

Lemma parse_limit_spec_witness :
  (py_int "abc" = None
   ∧ parse_limit new_cli ["Messages"; "abc"] = (PyNone, PyNone)
   ∧ cmd_list ["Messages"; "abc"] (start_state new_cli demo_account)
     = (Ok tt, printed usage_list (start_state new_cli demo_account)))
  ∧ (py_int "5" = Some 5
     ∧ parse_limit new_cli ["Msg"; "5"; "extra"] = (PyStr "msg", PyInt 5)).
Proof.
  split.
  - split; [reflexivity|].
    destruct (proj2 (proj2 (proj2 (parse_limit_spec (interp := ascii_builtins) new_cli)))
                "Messages" "abc" [] eq_refl) as [Hparse Hcmds].
    split; [exact Hparse|].
    exact (proj1 (Hcmds (start_state new_cli demo_account))).
  - split; [reflexivity|].
    exact (proj1 (proj2 (proj2 (parse_limit_spec (interp := ascii_builtins) new_cli)))
             "Msg" "5" ["extra"] 5 eq_refl).
Defined.

Example parse_limit_demo :
  parse_limit new_cli [] = (PyNone, PyNone)
  ∧ parse_limit new_cli ["MESSAGES"] = (PyStr "messages", PyInt 1000)
  ∧ parse_limit new_cli ["Msg"; "5"; "extra"] = (PyStr "msg", PyInt 5)
  ∧ parse_limit new_cli ["users"; " -1_0 "] = (PyStr "users", PyInt (-10))
  ∧ parse_limit new_cli ["messages"; "5.0"] = (PyNone, PyNone).
Proof. vm_compute. done. Qed.

(** [int] on ASCII text: the bytes 28 to 31 are no white space to it,
    and a literal of more than 4300 digits is refused. *)
Example ascii_int_demo :
  ascii_int (String (ascii_of_N 28) "7") = None
  ∧ ascii_int (String (ascii_of_N 12) "7 ") = Some 7
  ∧ ascii_int (string_of_list_ascii (replicate 4301 "1"%char)) = None
  ∧ is_Some (ascii_int (string_of_list_ascii (replicate 4300 "1"%char))).
Proof. vm_compute. split_and!; try done. by eexists. Qed.

Lemma chat_by_id_first_match_witness :
  chat_by_id memory_sdk "Team Chat" demo_account = (Ok (PyInt 42), demo_account)
  ∧ chat_by_id memory_sdk "Team chat" demo_account = (Ok PyNone, demo_account).
Proof.
  destruct (chat_by_id_first_match memory_sdk "Team Chat" demo_account
              (acc_dialogs demo_account) demo_account eq_refl) as [Hfirst _].
  destruct (chat_by_id_first_match memory_sdk "Team chat" demo_account
              (acc_dialogs demo_account) demo_account eq_refl) as [_ Hnone].
  split.
  - apply (Hfirst 1%nat (mk_Dialog "Team Chat" 42)); [reflexivity|reflexivity|].
    intros [|j] c' Hj Hlt; [|lia]. cbn in Hj. by simplify_eq.
  - apply Hnone. intros c Hc. set_unfold.
    destruct Hc as [->|[->|[->|[->|[]]]]]; done.
Defined.

Lemma cmd_sel_not_found_witness :
  (∃ s', cmd_sel ["Team"; "chat"]
           (start_state (selected (PyInt 42) memory_facade) demo_account)
         = (Ok tt, s')
     ∧ stdout s' = [] ++ ["Chat not found."]
     ∧ current (self s') = PyInt 42
     ∧ self s' = selected (PyInt 42) memory_facade)
  ∧ (∃ chat_id w',
       chat_by_id memory_sdk "Team Chat" demo_account = (Ok chat_id, w')
       ∧ chat_id ≠ PyNone
       ∧ current (self (snd (cmd_sel ["Team"; "Chat"] (start_state new_cli demo_account))))
         = chat_id).
Proof.
  split.
  - apply (proj1 (cmd_sel_not_found ["Team"; "chat"]
                    (start_state (selected (PyInt 42) memory_facade) demo_account))
                 demo_account).
    + discriminate.
    + reflexivity.
  - apply (proj2 (cmd_sel_not_found ["Team"; "Chat"] (start_state new_cli demo_account))
                 (Ok tt)
                 (snd (cmd_sel ["Team"; "Chat"] (start_state new_cli demo_account)))).
    + reflexivity.
    + vm_compute. discriminate.
Defined.

Lemma cmd_delete_nothing_witness :
  cmd_delete ["messages"; "5"] (start_state (selected (PyInt 42) memory_facade) empty_account)
  = (Ok tt, mk_State (selected (PyInt 42) memory_facade) empty_account
              ([] ++ ["No messages to delete."])
              ([] ++ [GetAllMessages (PyInt 42) (PyInt 5)]) ∅ "20240310120000").
Proof.
  apply (cmd_delete_nothing ["messages"; "5"]
           (start_state (selected (PyInt 42) memory_facade) empty_account)
           (PyStr "messages") (PyInt 5) empty_account);
    reflexivity.
Defined.

Lemma no_chat_selected_witness :
  cmd_list ["messages"; "5"] (start_state new_cli demo_account)
  = (Ok tt, printed "No chat selected" (start_state new_cli demo_account)).
Proof.
  apply (no_chat_selected (interp := ascii_builtins) "messages" ["5"]
           (start_state new_cli demo_account)).
  - discriminate.
  - right. exists "5", 5, []. split; reflexivity.
  - reflexivity.
Defined.

(** C7 fails as worded: with the target [messages] and a count that is no
    integer the command prints its usage line, chat selected or not. *)
Lemma no_chat_selected_bad_count :
  current (self (start_state new_cli demo_account)) = PyNone
  ∧ cmd_list ["messages"; "abc"] (start_state new_cli demo_account)
    = (Ok tt, printed usage_list (start_state new_cli demo_account))
  ∧ cmd_list ["messages"; "abc"] (start_state new_cli demo_account)
    ≠ (Ok tt, printed "No chat selected" (start_state new_cli demo_account)).
Proof.
  split; [reflexivity|]. split; [reflexivity|].
  vm_compute. discriminate.
Qed.

Lemma Cli_init_limit_witness :
  limit (Cli_init (PyInt 25) memory_facade) = PyInt 25
  ∧ limit (Cli_init (PyInt 0) memory_facade) = PyInt 1000
  ∧ limit (Cli_init (PyInt (-5)) memory_facade) = PyInt (-5)
  ∧ ∃ n, limit (Cli_init PyNone memory_facade) = PyInt n ∧ 0 < n.
Proof.
  split_and!.
  - apply (proj1 (proj2 (proj2 (Cli_init_limit (PyInt 25) memory_facade))) 25);
      [reflexivity|lia].
  - apply (proj1 (proj2 (Cli_init_limit (PyInt 0) memory_facade))).
    right. reflexivity.
  - apply (proj1 (proj2 (proj2 (Cli_init_limit (PyInt (-5)) memory_facade))) (-5));
      [reflexivity|lia].
  - apply (proj2 (proj2 (proj2 (Cli_init_limit PyNone memory_facade)))).
    left. reflexivity.
Defined.

(** C8 fails as worded: a negative supplied limit is truthy, so it is stored
    as it is, neither positive nor 1000. *)
Lemma default_limit_negative :
  ¬ default_limit_as_specified (PyInt (-5))
      (limit (Cli_init (PyInt (-5)) memory_facade)).
Proof.
  intros [(n & Hn & Hpos) _]. cbn in Hn. simplify_eq. lia.
Qed.



(** * Writing and reading JSON *)

#[local] Arguments String.append !_ _ : simpl nomatch.

Section Text.

Lemma sapp_assoc (a b c : string) : (a +:+ b) +:+ c = a +:+ (b +:+ c).
Proof. induction a as [|x a IH]; cbn; [done|by rewrite IH]. Qed.

Lemma sapp_nil_r (a : string) : a +:+ "" = a.
Proof. induction a as [|x a IH]; cbn; [done|by rewrite IH]. Qed.

Lemma slength_app (a b : string) :
  String.length (a +:+ b) = (String.length a + String.length b)%nat.
Proof. induction a as [|x a IH]; cbn; [done|by rewrite IH]. Qed.

Lemma skip_ws_spaces n (s : string) : skip_ws (spaces n +:+ s) = skip_ws s.
Proof. induction n as [|n IH]; [done|]. cbn [spaces]. exact IH. Qed.

Lemma skip_ws_newline_indent level (s : string) :
  skip_ws (newline_indent level +:+ s) = skip_ws s.
Proof.
  unfold newline_indent. rewrite sapp_assoc. cbn -[Nat.mul].
  apply skip_ws_spaces.
Qed.

Lemma skip_ws_head (s : string) : value_head s = true → skip_ws s = s.
Proof.
  destruct s as [|c s]; [done|]. cbn.
  destruct (json_space c); [done|]. done.
Qed.

Lemma skip_ws_not_space c (s : string) :
  json_space c = false → skip_ws (String c s) = String c s.
Proof. intros H. cbn. by rewrite H. Qed.

End Text.

Section Numbers.

Lemma digit_of_pretty_N_char (r : N) :
  (r < 10)%N → digit_of (pretty_N_char r) = Some (Z.of_N r).
Proof.
  intros Hr.
  assert (r = 0 ∨ r = 1 ∨ r = 2 ∨ r = 3 ∨ r = 4 ∨ r = 5 ∨ r = 6 ∨ r = 7
          ∨ r = 8 ∨ r = 9)%N as Hcases by lia.
  repeat (destruct Hcases as [->|Hcases]; [done|]). by subst.
Qed.

Lemma pretty_N_go_app (x : N) (s rest : string) :
  pretty_N_go x s +:+ rest = pretty_N_go x (s +:+ rest).
Proof.
  revert s. induction (N.lt_wf_0 x) as [x _ IH]; intros s.
  assert (x = 0 ∨ 0 < x)%N as [->|Hx] by lia.
  - by rewrite !pretty_N_go_0.
  - rewrite (pretty_N_go_step x s), (pretty_N_go_step x (s +:+ rest)) by done.
    rewrite IH; [done|]. by apply N.div_lt.
Qed.

(** The digits [pretty_N_go] puts before [s] start with a digit that is not
    zero, and reading them from that digit on amounts to having read [x]. *)
Lemma pretty_N_go_digits (x : N) (s : string) :
  (0 < x)%N →
  ∃ c t d, pretty_N_go x s = String c t
    ∧ digit_of c = Some d ∧ 0 < d
    ∧ parse_digits d t = parse_digits (Z.of_N x) s.
Proof.
  revert s. induction (N.lt_wf_0 x) as [x _ IH]; intros s Hx.
  rewrite pretty_N_go_step by done.
  destruct (N.eq_0_gt_0_cases (x `div` 10)) as [Hq|Hq].
  - rewrite Hq, pretty_N_go_0.
    assert (x < 10)%N as Hlt.
    { destruct (N.lt_ge_cases x 10) as [|Hge]; [done|].
      apply (N.Div0.div_le_mono _ _ 10) in Hge.
      change (10 `div` 10)%N with 1%N in Hge. lia. }
    rewrite N.mod_small by done.
    exists (pretty_N_char x), s, (Z.of_N x).
    split_and!; [done|by apply digit_of_pretty_N_char|lia|done].
  - destruct (IH (x `div` 10)%N) with (s := String (pretty_N_char (x `mod` 10)) s)
      as (c & t & d & Heq & Hc & Hd & Hparse); [by apply N.div_lt|done|].
    exists c, t, d. split_and!; [done..|].
    rewrite Hparse. cbn [parse_digits].
    rewrite digit_of_pretty_N_char by (apply N.mod_lt; lia).
    f_equal. rewrite (N.div_mod x 10) at 3 by lia. lia.
Qed.

Lemma parse_digits_stop (acc : Z) (s : string) :
  number_goes_on s = false → parse_digits acc s = (acc, s).
Proof.
  destruct s as [|c s]; [done|]. cbn.
  destruct (digit_of c); [done|]. done.
Qed.

Lemma parse_natural_pretty (p : positive) (rest : string) :
  (number_goes_on rest = false →
   parse_natural (pretty (Z.pos p) +:+ rest) = Some (Z.pos p, rest))
  ∧ ∃ c t, pretty (Z.pos p) +:+ rest = String c t ∧ is_Some (digit_of c).
Proof.
  change (pretty (Z.pos p)) with (pretty_N_go (N.pos p) "").
  rewrite pretty_N_go_app. cbn [String.append].
  destruct (pretty_N_go_digits (N.pos p) rest) as (c & t & d & -> & Hc & Hd & Hparse);
    [lia|].
  split; [|by eauto]. intros Hrest.
  unfold parse_natural. rewrite Hc.
  destruct (Z.eqb_spec d 0) as [?|_]; [lia|].
  rewrite Hparse, parse_digits_stop by done. cbn. by rewrite Hrest.
Qed.

(** The text of an integer starts with a digit or a minus sign. *)
Lemma pretty_head (z : Z) (rest : string) :
  ∃ c t, pretty z +:+ rest = String c t ∧ number_head c = true.
Proof.
  destruct z as [|p|p]; [by eexists _, _| |by eexists _, _].
  destruct (parse_natural_pretty p rest) as (_ & c & t & Heq & d & Hd).
  exists c, t. split; [done|]. unfold number_head. by rewrite Hd.
Qed.

Lemma parse_number_pretty (z : Z) (rest : string) :
  number_goes_on rest = false →
  parse_number (pretty z +:+ rest) = Some (z, rest).
Proof.
  intros Hrest. destruct z as [|p|p].
  - change (parse_number (pretty 0 +:+ rest))
      with (if number_goes_on rest then None else Some (0, rest)).
    by rewrite Hrest.
  - destruct (parse_natural_pretty p rest) as (Hparse & c & t & Heq & d & Hd).
    specialize (Hparse Hrest). rewrite Heq in *. unfold parse_number.
    destruct (N.eqb_spec (N_of_ascii c) 45) as [Hminus|_]; [|done].
    unfold digit_of in Hd. rewrite Hminus in Hd. done.
  - destruct (parse_natural_pretty p rest) as (Hparse & _).
    specialize (Hparse Hrest).
    change (pretty (Z.neg p)) with ("-" +:+ pretty (Z.pos p)).
    cbn [String.append]. unfold parse_number.
    change (N_of_ascii "-" =? 45)%N with true. cbn match. by rewrite Hparse.
Qed.

End Numbers.

Section Strings.

Lemma parse_string_escape_char (c : ascii) (s : string) :
  parse_string (escape_char c +:+ s) = prepend (String c "") (parse_string s).
Proof. destruct c as [[] [] [] [] [] [] [] []]; reflexivity. Qed.

Lemma parse_string_escape (s rest : string) :
  parse_string (escape s +:+ dquote +:+ rest) = Some (s, rest).
Proof.
  induction s as [|c s IH]; [reflexivity|].
  cbn [escape]. rewrite sapp_assoc, parse_string_escape_char, IH. reflexivity.
Qed.

Lemma quote_app (s rest : string) :
  quote s +:+ rest = String (ascii_of_N 34) (escape s +:+ dquote +:+ rest).
Proof. unfold quote. by rewrite !sapp_assoc. Qed.

End Strings.

Section Descent.

Lemma parse_value_string f (s : string) :
  parse_value (S f) (String (ascii_of_N 34) s) =
  match parse_string s with
  | Some (body, rest) => Some (JStr body, rest)
  | None => None
  end.
Proof. reflexivity. Qed.

Lemma parse_value_number f c (t : string) :
  number_head c = true →
  parse_value (S f) (String c t) =
  match parse_number (String c t) with
  | Some (z, rest) => Some (JInt z, rest)
  | None => None
  end.
Proof.
  destruct c as [[] [] [] [] [] [] [] []]; intros H;
    try (vm_compute in H; discriminate H); reflexivity.
Qed.

Lemma number_head_value_head c (t : string) :
  number_head c = true → value_head (String c t) = true.
Proof.
  destruct c as [[] [] [] [] [] [] [] []]; intros H;
    try (vm_compute in H; discriminate H); reflexivity.
Qed.

Lemma value_head_inv (s : string) :
  value_head s = true →
  ∃ c t, s = String c t ∧ (N_of_ascii c =? 93)%N = false
    ∧ (N_of_ascii c =? 125)%N = false.
Proof.
  destruct s as [|c t]; [done|]. cbn. intros H. exists c, t.
  destruct (N_of_ascii c =? 93)%N, (N_of_ascii c =? 125)%N,
    (json_space c); done.
Qed.

Lemma parse_value_array f (s body : string) items rest :
  skip_ws s = body →
  value_head body = true →
  parse_elements f body = Some (items, rest) →
  parse_value (S f) (String "[" s) = Some (JArr items, rest).
Proof.
  intros Hskip (c & t & -> & Hc & _)%value_head_inv Hitems.
  change (parse_value (S f) (String "[" s)) with
    (match skip_ws s with
     | String c1 rest1 =>
         if (N_of_ascii c1 =? 93)%N then Some (JArr [], rest1)
         else match parse_elements f (String c1 rest1) with
              | Some (items, rest) => Some (JArr items, rest)
              | None => None
              end
     | EmptyString => None
     end).
  by rewrite Hskip, Hc, Hitems.
Qed.

Lemma parse_value_object f (s body : string) pairs rest :
  skip_ws s = body →
  value_head body = true →
  parse_members f body = Some (pairs, rest) →
  parse_value (S f) (String "{" s) = Some (JObj (dict_of_pairs pairs), rest).
Proof.
  intros Hskip (c & t & -> & _ & Hc)%value_head_inv Hpairs.
  change (parse_value (S f) (String "{" s)) with
    (match skip_ws s with
     | String c1 rest1 =>
         if (N_of_ascii c1 =? 125)%N then Some (JObj [], rest1)
         else match parse_members f (String c1 rest1) with
              | Some (pairs, rest) => Some (JObj (dict_of_pairs pairs), rest)
              | None => None
              end
     | EmptyString => None
     end).
  by rewrite Hskip, Hc, Hpairs.
Qed.

Lemma parse_elements_S f (s : string) :
  parse_elements (S f) s =
  match parse_value f s with
  | Some (v, rest) =>
      match skip_ws rest with
      | String c rest1 =>
          if (N_of_ascii c =? 93)%N then Some ([v], rest1)
          else if (N_of_ascii c =? 44)%N then
            match parse_elements f (skip_ws rest1) with
            | Some (vs, rest2) => Some (v :: vs, rest2)
            | None => None
            end
          else None
      | EmptyString => None
      end
  | None => None
  end.
Proof. reflexivity. Qed.

Lemma parse_elements_last f (s rest0 rest : string) v :
  parse_value f s = Some (v, rest0) →
  skip_ws rest0 = String "]" rest →
  parse_elements (S f) s = Some ([v], rest).
Proof. intros Hv Hskip. by rewrite parse_elements_S, Hv, Hskip. Qed.

Lemma parse_elements_more f (s rest0 rest1 rest : string) v vs :
  parse_value f s = Some (v, rest0) →
  skip_ws rest0 = String "," rest1 →
  parse_elements f (skip_ws rest1) = Some (vs, rest) →
  parse_elements (S f) s = Some (v :: vs, rest).
Proof.
  intros Hv Hskip Hvs. rewrite parse_elements_S, Hv, Hskip.
  change (N_of_ascii "," =? 93)%N with false.
  change (N_of_ascii "," =? 44)%N with true. cbn match. by rewrite Hvs.
Qed.

Lemma parse_members_S f (s : string) :
  parse_members (S f) (String (ascii_of_N 34) s) =
  match parse_string s with
  | Some (k, rest) =>
      match skip_ws rest with
      | String c rest1 =>
          if (N_of_ascii c =? 58)%N then
            match parse_value f (skip_ws rest1) with
            | Some (v, rest2) =>
                match skip_ws rest2 with
                | String c2 rest3 =>
                    if (N_of_ascii c2 =? 125)%N then Some ([(k, v)], rest3)
                    else if (N_of_ascii c2 =? 44)%N then
                      match parse_members f (skip_ws rest3) with
                      | Some (kvs, rest4) => Some ((k, v) :: kvs, rest4)
                      | None => None
                      end
                    else None
                | EmptyString => None
                end
            | None => None
            end
          else None
      | EmptyString => None
      end
  | None => None
  end.
Proof. reflexivity. Qed.

Lemma parse_members_last f (s rest0 rest1 rest2 rest : string) k v :
  parse_string s = Some (k, rest0) →
  skip_ws rest0 = String ":" rest1 →
  parse_value f (skip_ws rest1) = Some (v, rest2) →
  skip_ws rest2 = String "}" rest →
  parse_members (S f) (String (ascii_of_N 34) s) = Some ([(k, v)], rest).
Proof.
  intros Hk Hcolon Hv Hclose.
  by rewrite parse_members_S, Hk, Hcolon; cbn; rewrite Hv, Hclose.
Qed.

Lemma parse_members_more f (s rest0 rest1 rest2 rest3 rest : string) k v kvs :
  parse_string s = Some (k, rest0) →
  skip_ws rest0 = String ":" rest1 →
  parse_value f (skip_ws rest1) = Some (v, rest2) →
  skip_ws rest2 = String "," rest3 →
  parse_members f (skip_ws rest3) = Some (kvs, rest) →
  parse_members (S f) (String (ascii_of_N 34) s) = Some ((k, v) :: kvs, rest).
Proof.
  intros Hk Hcolon Hv Hcomma Hkvs.
  rewrite parse_members_S, Hk, Hcolon; cbn; rewrite Hv, Hcomma.
  change (N_of_ascii "," =? 125)%N with false.
  change (N_of_ascii "," =? 44)%N with true. cbn match. by rewrite Hkvs.
Qed.

End Descent.

Section RoundTrip.

Lemma json_ind' (P : json → Prop) :
  P JNull → (∀ b, P (JBool b)) → (∀ z, P (JInt z)) → (∀ s, P (JStr s)) →
  (∀ items, Forall P items → P (JArr items)) →
  (∀ members, Forall (λ kv, P (snd kv)) members → P (JObj members)) →
  ∀ v, P v.
Proof.
  intros HN HB HI HS HA HO. fix IH 1.
  intros [|b|z|s|items|members]; [done..| |].
  - apply HA. revert items. fix IHl 1.
    intros [|x items]; constructor; [apply IH|apply IHl].
  - apply HO. revert members. fix IHl 1.
    intros [|[k x] members]; constructor; [apply IH|apply IHl].
Qed.

Lemma wf_items (items : list json) :
  foldr (λ x P, wf_json x ∧ P) True items ↔ Forall wf_json items.
Proof.
  induction items as [|x items IH]; cbn; [by split; [constructor|]|].
  rewrite Forall_cons. by rewrite IH.
Qed.

Lemma wf_members (members : list (string * json)) :
  foldr (λ kv P, wf_json (snd kv) ∧ P) True members
  ↔ Forall (λ kv, wf_json (snd kv)) members.
Proof.
  induction members as [|x members IH]; cbn; [by split; [constructor|]|].
  rewrite Forall_cons. by rewrite IH.
Qed.

Lemma dict_set_fresh k v (d : list (string * json)) :
  k ∉ d.*1 → dict_set k v d = d ++ [(k, v)].
Proof.
  induction d as [|[k' v'] d IH]; [done|]. cbn.
  rewrite not_elem_of_cons. intros [Hne Hk].
  destruct (String.eqb_spec k' k) as [->|_]; [done|]. by rewrite IH.
Qed.

Lemma dict_of_pairs_nodup (pairs : list (string * json)) :
  NoDup (pairs.*1) → dict_of_pairs pairs = pairs.
Proof.
  unfold dict_of_pairs.
  enough (∀ acc, NoDup ((acc ++ pairs).*1) →
            fold_left (λ d kv, dict_set (fst kv) (snd kv) d) pairs acc = acc ++ pairs)
    as H by (intros; by apply (H [])).
  induction pairs as [|[k v] pairs IH]; intros acc Hnodup; cbn.
  - by rewrite app_nil_r.
  - rewrite dict_set_fresh.
    + rewrite IH; rewrite <-app_assoc; done.
    + rewrite fmap_app in Hnodup. apply NoDup_app in Hnodup as (_ & Hdisj & _).
      intros Hk. apply (Hdisj k Hk). cbn. apply list_elem_of_here.
Qed.

Lemma dumps_at_head level v (rest : string) :
  value_head (dumps_at level v +:+ rest) = true.
Proof.
  destruct v as [|[]|z|s|[|x items]|[|kv members]]; try reflexivity.
  cbn [dumps_at]. destruct (pretty_head z rest) as (c & t & -> & Hc).
  by apply number_head_value_head.
Qed.

Lemma join_cons2 (sep a b : string) (l : list string) :
  join sep (a :: b :: l) = a +:+ sep +:+ join sep (b :: l).
Proof. reflexivity. Qed.

Lemma join_head level sep (x : json) items (rest : string) :
  value_head (join sep (List.map (dumps_at level) (x :: items)) +:+ rest) = true.
Proof.
  destruct items as [|y items].
  - apply dumps_at_head.
  - cbn [List.map]. rewrite join_cons2, sapp_assoc. apply dumps_at_head.
Qed.

Lemma skip_ws_dumps level v (rest : string) :
  skip_ws (dumps_at level v +:+ rest) = dumps_at level v +:+ rest.
Proof. apply skip_ws_head, dumps_at_head. Qed.

Lemma parse_elements_dumps (items : list json) :
  items ≠ [] →
  Forall reads_back items →
  ∀ fuel level rest,
    (foldr (λ x n, S (Nat.max (need x) n)) O items ≤ fuel)%nat →
    parse_elements fuel
      (join ("," +:+ newline_indent (S level)) (List.map (dumps_at (S level)) items)
       +:+ newline_indent level +:+ "]" +:+ rest)
    = Some (items, rest).
Proof.
  intros Hne Hall. induction Hall as [|x items Hx Hitems IH]; [done|].
  intros fuel level rest Hfuel. cbn [foldr] in Hfuel.
  destruct fuel as [|f]; [lia|].
  destruct items as [|y items].
  - eapply parse_elements_last.
    + apply Hx; [cbn in *; lia|reflexivity].
    + by rewrite skip_ws_newline_indent.
  - cbn [List.map]. rewrite join_cons2, !sapp_assoc.
    eapply parse_elements_more.
    + apply Hx; [lia|reflexivity].
    + reflexivity.
    + rewrite skip_ws_newline_indent.
      rewrite (skip_ws_head _ (join_head (S level) _ y items _)).
      apply IH; [done|lia].
Qed.

Lemma members_join_head level sep (kv : string * json) members (rest : string) :
  value_head
    (join sep (List.map (λ kv, quote (fst kv) +:+ ": " +:+ dumps_at level (snd kv))
                        (kv :: members)) +:+ rest) = true.
Proof.
  destruct members as [|kv' members]; cbn [List.map].
  - cbn [join]. by rewrite sapp_assoc, quote_app.
  - by rewrite join_cons2, !sapp_assoc, quote_app.
Qed.

Lemma parse_members_dumps (members : list (string * json)) :
  members ≠ [] →
  Forall (λ kv, reads_back (snd kv)) members →
  ∀ fuel level rest,
    (foldr (λ kv n, S (Nat.max (need (snd kv)) n)) O members ≤ fuel)%nat →
    parse_members fuel
      (join ("," +:+ newline_indent (S level))
            (List.map (λ kv, quote (fst kv) +:+ ": " +:+ dumps_at (S level) (snd kv))
                      members)
       +:+ newline_indent level +:+ "}" +:+ rest)
    = Some (members, rest).
Proof.
  intros Hne Hall. induction Hall as [|[k v] members Hv Hmembers IH]; [done|].
  intros fuel level rest Hfuel. cbn [foldr snd] in Hfuel, Hv.
  destruct fuel as [|f]; [lia|].
  destruct members as [|kv members]; cbn [List.map fst snd].
  - cbn [join]. rewrite !sapp_assoc, quote_app.
    set (R := newline_indent level +:+ "}" +:+ rest).
    eapply (parse_members_last f _ (": " +:+ dumps_at (S level) v +:+ R)
              (" " +:+ dumps_at (S level) v +:+ R) R rest k v).
    + apply parse_string_escape.
    + reflexivity.
    + change (skip_ws (" " +:+ dumps_at (S level) v +:+ R))
        with (skip_ws (dumps_at (S level) v +:+ R)).
      rewrite skip_ws_dumps. apply Hv; [cbn in *; lia|reflexivity].
    + unfold R. by rewrite skip_ws_newline_indent.
  - rewrite join_cons2, !sapp_assoc, quote_app.
    set (J := join _ _ +:+ _).
    eapply (parse_members_more f _ (": " +:+ dumps_at (S level) v +:+ "," +:+ newline_indent (S level) +:+ J)
              (" " +:+ dumps_at (S level) v +:+ "," +:+ newline_indent (S level) +:+ J)
              ("," +:+ newline_indent (S level) +:+ J)
              (newline_indent (S level) +:+ J) rest k v).
    + apply parse_string_escape.
    + reflexivity.
    + change (skip_ws (" " +:+ ?x)) with (skip_ws x).
      rewrite skip_ws_dumps. apply Hv; [lia|reflexivity].
    + reflexivity.
    + rewrite skip_ws_newline_indent. unfold J.
      rewrite (skip_ws_head _ (members_join_head (S level) _ kv members _)).
      apply IH; [done|lia].
Qed.

(** Every value whose objects have distinct keys is read back from its
    text. *)
Lemma parse_value_dumps (v : json) : wf_json v → reads_back v.
Proof.
  induction v as [|b|z|s|items IH|members IH] using json_ind';
    intros Hwf fuel level rest Hfuel Hrest;
    (destruct fuel as [|f]; [cbn in Hfuel; lia|]).
  - reflexivity.
  - by destruct b.
  - cbn [dumps_at]. destruct (pretty_head z rest) as (c & t & Heq & Hc).
    rewrite Heq, parse_value_number by done.
    by rewrite <-Heq, parse_number_pretty.
  - cbn [dumps_at]. by rewrite quote_app, parse_value_string, parse_string_escape.
  - destruct items as [|x items]; [reflexivity|].
    change (dumps_at level (JArr (x :: items))) with
      ("[" +:+ newline_indent (S level)
       +:+ join ("," +:+ newline_indent (S level))
                (List.map (dumps_at (S level)) (x :: items))
       +:+ newline_indent level +:+ "]").
    rewrite !sapp_assoc.
    eapply parse_value_array.
    + rewrite skip_ws_newline_indent. apply skip_ws_head, join_head.
    + apply join_head.
    + apply parse_elements_dumps; [done| |cbn [need] in Hfuel; lia].
      cbn [wf_json] in Hwf. apply wf_items in Hwf.
      rewrite Forall_forall in *. auto.
  - destruct members as [|kv members]; [reflexivity|].
    change (dumps_at level (JObj (kv :: members))) with
      ("{" +:+ newline_indent (S level)
       +:+ join ("," +:+ newline_indent (S level))
                (List.map (λ kv, quote (fst kv) +:+ ": " +:+ dumps_at (S level) (snd kv))
                          (kv :: members))
       +:+ newline_indent level +:+ "}").
    rewrite !sapp_assoc.
    cbn [wf_json] in Hwf. destruct Hwf as [Hnodup Hwf].
    trans (Some (JObj (dict_of_pairs (kv :: members)), rest));
      [|by rewrite dict_of_pairs_nodup].
    eapply parse_value_object.
    + rewrite skip_ws_newline_indent. apply skip_ws_head, members_join_head.
    + apply members_join_head.
    + apply parse_members_dumps; [done| |cbn [need] in Hfuel; lia].
      apply wf_members in Hwf. rewrite Forall_forall in *. auto.
Qed.

(** The fuel [loads] gives the descent is enough for every text [dumps]
    writes. *)
Lemma foldr_need_le {A} (nd : A → nat) (txt : A → string) (sep : string) (l : list A) :
  Forall (λ x, nd x ≤ String.length (txt x) + 1)%nat l →
  (1 ≤ String.length sep)%nat →
  (foldr (λ x n, S (Nat.max (nd x) n)) O l
   ≤ String.length (join sep (List.map txt l)) + 2)%nat.
Proof.
  intros Hall Hsep. induction Hall as [|x l Hx Hl IH]; [cbn; lia|].
  destruct l as [|y l].
  - cbn in *. lia.
  - cbn [List.map]. rewrite join_cons2, !slength_app.
    cbn [foldr List.map] in *. lia.
Qed.

Lemma need_le_length (v : json) level :
  (need v ≤ String.length (dumps_at level v) + 1)%nat.
Proof.
  revert level.
  induction v as [|b|z|s|items IH|members IH] using json_ind'; intros level;
    try (cbn [need]; lia).
  - destruct items as [|x items]; [cbn; lia|].
    change (dumps_at level (JArr (x :: items))) with
      ("[" +:+ newline_indent (S level)
       +:+ join ("," +:+ newline_indent (S level))
                (List.map (dumps_at (S level)) (x :: items))
       +:+ newline_indent level +:+ "]").
    cbn [need]. rewrite !slength_app.
    assert (foldr (λ x n, S (Nat.max (need x) n)) O (x :: items)
            ≤ String.length (join ("," +:+ newline_indent (S level))
                               (List.map (dumps_at (S level)) (x :: items))) + 2)%nat
      as Hle.
    { apply foldr_need_le; [|cbn; lia].
      eapply Forall_impl; [exact IH|]. cbn. auto. }
    cbn [String.length String.append newline_indent newline] in *. lia.
  - destruct members as [|kv members]; [cbn; lia|].
    change (dumps_at level (JObj (kv :: members))) with
      ("{" +:+ newline_indent (S level)
       +:+ join ("," +:+ newline_indent (S level))
                (List.map (λ kv, quote (fst kv) +:+ ": " +:+ dumps_at (S level) (snd kv))
                          (kv :: members))
       +:+ newline_indent level +:+ "}").
    cbn [need]. rewrite !slength_app.
    assert (foldr (λ kv n, S (Nat.max (need (snd kv)) n)) O (kv :: members)
            ≤ String.length
                (join ("," +:+ newline_indent (S level))
                   (List.map (λ kv, quote (fst kv) +:+ ": " +:+ dumps_at (S level) (snd kv))
                             (kv :: members))) + 2)%nat
      as Hle.
    { apply (foldr_need_le (λ kv, need (snd kv))); [|cbn; lia].
      eapply Forall_impl; [exact IH|]. cbn. intros kv' Hkv'.
      rewrite !slength_app. specialize (Hkv' (S level)).
      cbn [String.length]. lia. }
    cbn [String.length String.append newline_indent newline] in *. lia.
Qed.

(** Writing a value and reading the text back gives the value. *)
Lemma loads_dumps (v : json) : wf_json v → loads (dumps v) = Some v.
Proof.
  intros Hwf. unfold loads, dumps.
  pose proof (skip_ws_dumps 0 v "") as Hskip.
  pose proof (parse_value_dumps v Hwf (2 * String.length (dumps_at 0 v) + 2)%nat
                O "") as Hparse.
  rewrite sapp_nil_r in Hskip, Hparse.
  rewrite Hskip, Hparse; [done| |done].
  pose proof (need_le_length v 0). lia.
Qed.

End RoundTrip.

(** * Exporting messages and reading the export back *)

Section SaveMessages.
Context {interp : Builtins} {W : Type}.
Implicit Types (s : State W) (msgs : list Message).

Lemma message_record_wf (m : Message) : wf_json (message_record m).
Proof.
  unfold message_record. cbn.
  split; [|by destruct (msg_sender_id m), (msg_text m), (msg_date m)].
  apply (bool_decide_unpack _). by vm_compute.
Qed.

Lemma export_wf msgs : wf_json (JArr (List.map message_record msgs)).
Proof.
  cbn [wf_json]. apply wf_items.
  induction msgs as [|m msgs IH]; constructor; [apply message_record_wf|done].
Qed.

Lemma messages_path_not_out (ts : string) : messages_path ts ≠ "out".
Proof. unfold messages_path. cbn. discriminate. Qed.

Lemma bind_ok {S A B} (m : M S A) (k : A → M S B) (s s' : S) (a : A) :
  m s = (Ok a, s') → (m ≫= k) s = k a s'.
Proof. intros H. unfold mbind, M_bind. by rewrite H. Qed.

Lemma makedirs_ok path s :
  (fs s !! path = None ∨ fs s !! path = Some Dir) →
  makedirs path s = (Ok tt, set_fs (<[path := Dir]> (fs s)) s).
Proof. unfold makedirs. by intros [-> | ->]. Qed.

Lemma dump_to_ok path v s :
  (fs s !! path = None ∨ ∃ old, fs s !! path = Some (File old)) →
  dump_to path v s = (Ok tt, set_fs (<[path := File (dumps v)]> (fs s)) s).
Proof. unfold dump_to. by intros [-> | [old ->]]. Qed.

(** C9. [save messages] writes a file that reads back as an array with one
    element for each message fetched, in order; each element is an object
    with the keys id, from, text and date, in that order and no other, and
    its date is the message's ISO-8601 timestamp, or null for a message
    without timestamp. *)
Theorem save_messages_round_trip chat_id n s msgs w :
  client_get_all_messages (client (self s)) chat_id n (world s) = (Ok msgs, w) →
  (fs s !! "out" = None ∨ fs s !! "out" = Some Dir) →
  (fs s !! messages_path (now s) = None
   ∨ ∃ old, fs s !! messages_path (now s) = Some (File old)) →
  ∃ s' items,
    save_messages chat_id n s = (Ok tt, s')
    ∧ load_from (messages_path (now s)) s' = (Ok (JArr items), s')
    ∧ List.length items = List.length msgs
    ∧ Forall2 (λ m item,
        ∃ i f t d,
          item = JObj [("id", i); ("from", f); ("text", t); ("date", d)]
          ∧ i = JInt (msg_id m)
          ∧ f = to_json (msg_sender_id m)
          ∧ t = to_json (msg_text m)
          ∧ d = match msg_date m with
                | Some dt => JStr (isoformat dt)
                | None => JNull
                end) msgs items.
Proof.
  intros Hfetch Hout Hpath.
  set (path := messages_path (now s)).
  set (data := List.map message_record msgs).
  set (fs1 := <["out" := Dir]> (fs s)).
  set (fs2 := <[path := File (dumps (JArr data))]> fs1).
  exists (mk_State (self s) w
            (stdout s ++ ["Saved " +:+ pretty (List.length data) +:+ " messages to " +:+ path])
            (calls s ++ [GetAllMessages chat_id n]) fs2 (now s)), data.
  split_and!.
  - unfold save_messages.
    erewrite bind_ok; [|unfold call; by rewrite Hfetch].
    erewrite bind_ok; [|by apply makedirs_ok].
    erewrite bind_ok; [|reflexivity].
    erewrite bind_ok; cycle 1.
    { apply dump_to_ok. cbn. rewrite lookup_insert_ne; [done|].
      intros Heq. by apply (messages_path_not_out (now s)). }
    reflexivity.
  - unfold load_from. cbn [fs]. unfold fs2. rewrite lookup_insert_eq.
    by rewrite loads_dumps by apply export_wf.
  - unfold data. by rewrite length_map.
  - unfold data. clear. induction msgs as [|m msgs IH]; constructor; [|done].
    unfold message_record. eauto 10.
Qed.

End SaveMessages.

Lemma save_messages_round_trip_witness :
  ∃ s' items,
    save_messages (PyInt 42) (PyInt 1000)
      (start_state (selected (PyInt 42) memory_facade) service_account) = (Ok tt, s')
    ∧ load_from (messages_path "20240310120000") s' = (Ok (JArr items), s')
    ∧ List.length items = List.length (acc_history service_account)
    ∧ Forall2 (λ m item,
        ∃ i f t d,
          item = JObj [("id", i); ("from", f); ("text", t); ("date", d)]
          ∧ i = JInt (msg_id m)
          ∧ f = to_json (msg_sender_id m)
          ∧ t = to_json (msg_text m)
          ∧ d = match msg_date m with
                | Some dt => JStr (isoformat dt)
                | None => JNull
                end) (acc_history service_account) items.
Proof.
  apply (save_messages_round_trip (PyInt 42) (PyInt 1000)
           (start_state (selected (PyInt 42) memory_facade) service_account)
           (acc_history service_account) service_account).
  - reflexivity.
  - left. reflexivity.
  - left. reflexivity.
Defined.

(** The export of the witness above, read back: a message with a fraction
    of a second and a line break in its text, and a message without sender,
    text and date. *)
Example export_demo :
  fst (( save_messages (PyInt 42) (PyInt 1000) ;;
         load_from (messages_path "20240310120000") )
       (start_state (selected (PyInt 42) memory_facade) service_account))
  = Ok (JArr [JObj [("id", JInt 21); ("from", JInt 7);
                    ("text", JStr "line one
line two");
                    ("date", JStr "2024-03-09T18:00:00.250000+00:00")];
              JObj [("id", JInt 20); ("from", JNull); ("text", JNull);
                    ("date", JNull)]]).
Proof. vm_compute. reflexivity. Qed.

(** * Deleting through [Client] *)

(** C1, run on the code. The shell's part holds: it passes the selected
    chat and the identifiers fetched to the delete of its client and prints
    what that call returns. The delete of [Client] returns nothing, so with
    the shell's calls bound to [Client] by role, three messages fetched and
    three removed print "Deleted None messages"; with a [Client] object as it
    is, the fetch already fails for want of a method of that name. A facade
    whose delete returns the count prints "Deleted 3 messages". *)
Theorem delete_through_Client_prints_None :
  cmd_delete ["messages"; "5"]
    (start_state (selected (PyInt 42) (Client_by_role memory_sdk)) demo_account)
  = (Ok tt,
     mk_State (selected (PyInt 42) (Client_by_role memory_sdk))
       (mk_Account (acc_dialogs demo_account) [] (acc_members demo_account))
       ["Deleted None messages"]
       [GetAllMessages (PyInt 42) (PyInt 5); DeleteMessages (PyInt 42) [13; 12; 10]]
       ∅ "20240310120000")
  ∧ fst (cmd_delete ["messages"; "5"]
           (start_state (selected (PyInt 42) (Client_as_is memory_sdk)) demo_account))
    = Raise (AttributeError "get_all_messages")
  ∧ cmd_delete ["messages"; "5"]
      (start_state (selected (PyInt 42) memory_facade) demo_account)
    = (Ok tt,
       mk_State (selected (PyInt 42) memory_facade)
         (mk_Account (acc_dialogs demo_account) [] (acc_members demo_account))
         ["Deleted 3 messages"]
         [GetAllMessages (PyInt 42) (PyInt 5); DeleteMessages (PyInt 42) [13; 12; 10]]
         ∅ "20240310120000").
Proof. split_and!; reflexivity. Qed.

(** * Further facts: the date-range fetch *)

#[local] Arguments String.append : simpl never.

Section DateRange.
Context {interp : Builtins} {W : Type}.
Implicit Types (sdk : Sdk W) (s : State W).

Lemma lex_compare_antisym (a b : list Z) :
  lex_compare b a = CompOpp (lex_compare a b).
Proof.
  revert b. induction a as [|x a IH]; intros [|y b]; cbn; try done.
  rewrite (Z.compare_antisym x y).
  destruct (x ?= y); cbn; [apply IH|done..].
Qed.

Lemma lex_compare_le_lt (a b c : list Z) :
  lex_compare a b ≠ Gt → lex_compare b c = Lt → lex_compare a c = Lt.
Proof.
  revert b c. induction a as [|x a IH]; intros [|y b] [|z c]; cbn; try done.
  destruct (Z.compare_spec x y), (Z.compare_spec y z), (Z.compare_spec x z);
    try done; try lia; subst; eauto.
Qed.

Lemma too_old_not_in_range ts te (m : Message) :
  too_old ts m = true → in_range ts te m = false.
Proof.
  unfold too_old, in_range, dt_ltb, dt_leb.
  destruct (msg_date m) as [d|]; [|done].
  rewrite (lex_compare_antisym (dt_fields d) (dt_fields ts)).
  by destruct (lex_compare (dt_fields d) (dt_fields ts)).
Qed.

(** A message not newer than a too-old one is too old itself. *)
Lemma older_than_too_old ts (d d' : datetime) :
  dt_leb d' d = true → dt_ltb d ts = true → dt_ltb d' ts = true.
Proof.
  unfold dt_leb, dt_ltb. intros Hle Hlt.
  rewrite (lex_compare_le_lt (dt_fields d') (dt_fields d) (dt_fields ts)); [done| |].
  - by destruct (lex_compare (dt_fields d') (dt_fields d)).
  - by destruct (lex_compare (dt_fields d) (dt_fields ts)).
Qed.

Lemma newest_first_tail (m : Message) (l : list Message) :
  newest_first (m :: l) → newest_first l.
Proof.
  intros H i j mi mj di dj Hij Hi Hj. apply (H (S i) (S j)); [lia|done..].
Qed.

Lemma after_too_old_none_in_range ts te (m : Message) (l : list Message) :
  Forall (λ m, is_Some (msg_date m)) (m :: l) →
  newest_first (m :: l) →
  too_old ts m = true →
  List.filter (in_range ts te) (m :: l) = [].
Proof.
  intros Hdated Hsorted Hold. cbn.
  rewrite too_old_not_in_range by done.
  apply Forall_cons in Hdated as [[d Hd] Hdated].
  unfold too_old in Hold. rewrite Hd in Hold.
  induction l as [|x l IH]; [done|]. cbn.
  apply Forall_cons in Hdated as [[dx Hdx] Hdated].
  rewrite too_old_not_in_range.
  - apply IH; [done|].
    intros i j mi mj di dj Hij Hi Hj.
    destruct i as [|i]; destruct j as [|j]; try lia.
    + apply (Hsorted 0%nat (S (S j))); [lia|done..].
    + apply (Hsorted (S (S i)) (S (S j))); [lia|done..].
  - unfold too_old. rewrite Hdx.
    apply (older_than_too_old ts d dx); [|done].
    apply (Hsorted 0%nat 1%nat m x); [lia|done..].
Qed.

Lemma filter_before_first ts te (l : list Message) :
  Forall (λ m, is_Some (msg_date m)) l →
  newest_first l →
  List.filter (in_range ts te) (before_first (too_old ts) l)
  = List.filter (in_range ts te) l.
Proof.
  induction l as [|m l IH]; [done|]. intros Hdated Hsorted.
  cbn [before_first]. destruct (too_old ts m) eqn:Hold.
  - by rewrite after_too_old_none_in_range.
  - cbn. rewrite IH; [done|by eapply Forall_cons_1|by eapply newest_first_tail].
Qed.

(** X1. When the service yields the messages newest first, stopping at the
    first too-old message loses nothing: the fetch returns every message of
    the traversal whose timestamp lies in [[ts, te]]. *)
Theorem messages_between_dates_complete sdk chat_id ts te lim s traversal w' :
  sdk_iter_messages sdk chat_id te lim (world s) = (Ok traversal, w') →
  Forall (λ m, is_Some (msg_date m)) traversal →
  newest_first traversal →
  fst (messages_between_dates sdk chat_id ts te lim s)
  = Ok (List.filter (in_range ts te) traversal).
Proof.
  intros Hiter Hdated Hsorted.
  unfold messages_between_dates. run. rewrite Hiter.
  rewrite between_loop_spec by done. cbn.
  by rewrite filter_before_first.
Qed.

Lemma between_loop_undated chat_id ts te (met : list Message) m rest records s :
  Forall (λ x, is_Some (msg_date x) ∧ too_old ts x = false) met →
  msg_date m = None →
  between_loop chat_id ts te (met ++ m :: rest) records s
  = (Raise TypeError,
     mk_State (self s) (world s)
       (stdout s ++ List.map (info_line chat_id) (met ++ [m]))
       (calls s) (fs s) (now s)).
Proof.
  intros Hmet Hm. revert records s.
  induction Hmet as [|x met [[d Hd] Hx] _ IH]; intros records s.
  - cbn [app between_loop]. run. unfold info_line. by rewrite Hm.
  - cbn [app between_loop]. run. rewrite Hd.
    unfold too_old in Hx. rewrite Hd in Hx. rewrite Hx.
    rewrite IH. cbn. unfold info_line at 2. rewrite Hd.
    by rewrite <-app_assoc.
Qed.

(** X2. A message without timestamp, met before any too-old message, ends
    the fetch with [TypeError]: the comparison of its date fails after its
    info line is printed, and the messages collected so far are lost. *)
Theorem messages_between_dates_undated sdk chat_id ts te lim s met m rest w' :
  sdk_iter_messages sdk chat_id te lim (world s) = (Ok (met ++ m :: rest), w') →
  Forall (λ x, is_Some (msg_date x) ∧ too_old ts x = false) met →
  msg_date m = None →
  messages_between_dates sdk chat_id ts te lim s
  = (Raise TypeError,
     mk_State (self s) w'
       (stdout s ++ List.map (info_line chat_id) (met ++ [m]))
       (calls s) (fs s) (now s)).
Proof.
  intros Hiter Hmet Hm.
  unfold messages_between_dates. run. rewrite Hiter.
  by rewrite between_loop_undated.
Qed.

End DateRange.

(** * Further facts: the commands *)

Section Commands.
Context {interp : Builtins} {W : Type}.
Implicit Types (s : State W) (args parts : list string).

Lemma for_each_print {A} (line : A → string) (l : list A) s :
  for_each l (λ x, print (line x)) s
  = (Ok tt, mk_State (self s) (world s) (stdout s ++ List.map line l)
              (calls s) (fs s) (now s)).
Proof.
  revert s. induction l as [|x l IH]; intros s.
  - cbn. run. rewrite app_nil_r. by destruct s.
  - cbn [for_each]. run. rewrite IH. cbn. by rewrite <-app_assoc.
Qed.

Lemma list_messages_run chat_id n s :
  list_messages chat_id n s =
  match client_get_all_messages (client (self s)) chat_id n (world s) with
  | (Ok msgs, w) =>
      (Ok tt, mk_State (self s) w (stdout s ++ List.map message_line msgs)
                (calls s ++ [GetAllMessages chat_id n]) (fs s) (now s))
  | (Raise e, w) => (Raise e, called (GetAllMessages chat_id n) w s)
  end.
Proof.
  unfold list_messages. run.
  destruct (client_get_all_messages _ _ _ _) as [[msgs|e] w]; [|done].
  apply (for_each_print message_line).
Qed.

Lemma list_users_run chat_id s :
  list_users chat_id s =
  match client_get_users (client (self s)) chat_id (world s) with
  | (Ok users, w) =>
      (Ok tt, mk_State (self s) w (stdout s ++ List.map user_line users)
                (calls s ++ [GetUsers chat_id]) (fs s) (now s))
  | (Raise e, w) => (Raise e, called (GetUsers chat_id) w s)
  end.
Proof.
  unfold list_users. run.
  destruct (client_get_users _ _ _) as [[users|e] w]; [|done].
  apply (for_each_print user_line).
Qed.

Lemma save_messages_run chat_id n s :
  save_messages chat_id n s =
  match client_get_all_messages (client (self s)) chat_id n (world s) with
  | (Ok msgs, w) =>
      write_export (messages_path (now s)) "messages" (List.map message_record msgs)
        (called (GetAllMessages chat_id n) w s)
  | (Raise e, w) => (Raise e, called (GetAllMessages chat_id n) w s)
  end.
Proof.
  unfold save_messages, write_export, makedirs, dump_to. run.
  destruct (client_get_all_messages _ _ _ _) as [[msgs|e] w]; [|done]. cbn.
  destruct (fs s !! "out") as [[|old]|]; cbn; try done;
    destruct (<["out":=Dir]> (fs s) !! messages_path (now s)) as [[|old']|]; done.
Qed.

Lemma save_users_run chat_id s :
  save_users chat_id s =
  match client_get_users (client (self s)) chat_id (world s) with
  | (Ok users, w) =>
      write_export (users_path (now s)) "users" (List.map user_record users)
        (called (GetUsers chat_id) w s)
  | (Raise e, w) => (Raise e, called (GetUsers chat_id) w s)
  end.
Proof.
  unfold save_users, write_export, makedirs, dump_to. run.
  destruct (client_get_users _ _ _) as [[users|e] w]; [|done]. cbn.
  destruct (fs s !! "out") as [[|old]|]; cbn; try done;
    destruct (<["out":=Dir]> (fs s) !! users_path (now s)) as [[|old']|]; done.
Qed.

Lemma cmd_list_run args s :
  cmd_list args s =
  let '(target, count) := parse_limit (self s) args in
  if negb (truthy target) then (Ok tt, printed usage_list s)
  else if negb (truthy (current (self s))) then (Ok tt, printed "No chat selected" s)
  else if py_in target message_targets then list_messages (current (self s)) count s
  else if py_in target user_targets then list_users (current (self s)) s
  else (Ok tt, printed "Unknown list target. Use messages|users." s).
Proof.
  unfold cmd_list. run. destruct (parse_limit (self s) args) as [target count].
  by repeat case_match.
Qed.

Lemma cmd_save_run args s :
  cmd_save args s =
  let '(target, count) := parse_limit (self s) args in
  if negb (truthy target) then (Ok tt, printed usage_save s)
  else if negb (truthy (current (self s))) then (Ok tt, printed "No chat selected" s)
  else if py_in target message_targets then save_messages (current (self s)) count s
  else if py_in target user_targets then save_users (current (self s)) s
  else (Ok tt, printed "Unknown save target. Use messages|users." s).
Proof.
  unfold cmd_save. run. destruct (parse_limit (self s) args) as [target count].
  by repeat case_match.
Qed.

Lemma cmd_delete_run args s :
  cmd_delete args s =
  let '(target, count) := parse_limit (self s) args in
  if negb (truthy target) then (Ok tt, printed usage_delete s)
  else if negb (truthy (current (self s))) then (Ok tt, printed "No chat selected" s)
  else if py_in target message_targets then delete_messages (current (self s)) count s
  else (Ok tt, printed "Unknown delete target. Only 'messages' is supported." s).
Proof.
  unfold cmd_delete. run. destruct (parse_limit (self s) args) as [target count].
  by repeat case_match.
Qed.

Lemma new_call_inv (cs : list Call) (c x : Call) :
  x ∈ cs ++ [c] → x ∈ cs ∨ x = c.
Proof. rewrite elem_of_app, list_elem_of_singleton. tauto. Qed.

Lemma write_export_effect (path what : string) data s r s' :
  write_export path what data s = (r, s') →
  self s' = self s ∧ now s' = now s ∧ calls s' = calls s ∧ world s' = world s
  ∧ (∀ e, r = Raise e → stdout s' = stdout s)
  ∧ (∀ p, p ≠ "out" → p ≠ path → fs s' !! p = fs s !! p).
Proof.
  unfold write_export. intros H.
  destruct (fs s !! "out") as [[|old]|]; simplify_eq; try done;
    destruct (<["out":=Dir]> (fs s) !! path) as [[|old']|]; simplify_eq; cbn;
    split_and!; try done; intros p Hout Hp;
    by rewrite ?lookup_insert_ne by done.
Qed.

Lemma new_call_inv2 (cs : list Call) (c1 c2 x : Call) :
  x ∈ cs ++ [c1; c2] → x ∈ cs ∨ x = c1 ∨ x = c2.
Proof. rewrite elem_of_app, !elem_of_cons, elem_of_nil. tauto. Qed.

(** Closes the goals on the record of calls: a call that is new is the one
    just appended, and that one is not a delete. *)
Ltac no_new_delete :=
  let H := fresh in
  intros ? ? H; cbn in H;
  repeat (apply new_call_inv in H as [H|H]; [|discriminate H]);
  exact H.

Lemma cmd_list_effect args s r s' :
  cmd_list args s = (r, s') →
  self s' = self s ∧ now s' = now s ∧ fs s' = fs s
  ∧ (∀ e, r = Raise e → stdout s' = stdout s)
  ∧ (∀ chat ids, DeleteMessages chat ids ∈ calls s' → DeleteMessages chat ids ∈ calls s).
Proof.
  rewrite cmd_list_run. destruct (parse_limit (self s) args) as [target count].
  rewrite list_messages_run, list_users_run. intros H.
  repeat case_match; simplify_eq; cbn; split_and!; try done; no_new_delete.
Qed.

Lemma cmd_save_effect args s r s' :
  cmd_save args s = (r, s') →
  self s' = self s ∧ now s' = now s
  ∧ (∀ p, p ≠ "out" → p ≠ messages_path (now s) → p ≠ users_path (now s) →
       fs s' !! p = fs s !! p)
  ∧ (∀ e, r = Raise e → stdout s' = stdout s)
  ∧ (∀ chat ids, DeleteMessages chat ids ∈ calls s' → DeleteMessages chat ids ∈ calls s).
Proof.
  rewrite cmd_save_run. destruct (parse_limit (self s) args) as [target count].
  rewrite save_messages_run, save_users_run. intros H.
  repeat case_match; simplify_eq; cbn; try (split_and!; try done; no_new_delete);
    match goal with
    | H : write_export _ _ _ _ = _ |- _ =>
        apply write_export_effect in H as (Hself & Hnow & Hcalls & _ & Hout & Hfs)
    end;
    cbn in *; rewrite ?Hself, ?Hnow, ?Hcalls; split_and!; try done; auto;
    no_new_delete.
Qed.

(** What [delete] may add to the record of calls. *)
Lemma cmd_delete_effect args s r s' :
  cmd_delete args s = (r, s') →
  self s' = self s ∧ now s' = now s ∧ fs s' = fs s
  ∧ (∀ e, r = Raise e → stdout s' = stdout s)
  ∧ (∀ chat ids, DeleteMessages chat ids ∈ calls s' →
       DeleteMessages chat ids ∈ calls s
       ∨ ∃ count msgs w,
           chat = current (self s) ∧ truthy chat = true
           ∧ client_get_all_messages (client (self s)) chat count (world s) = (Ok msgs, w)
           ∧ msgs ≠ [] ∧ ids = List.map msg_id msgs).
Proof.
  rewrite cmd_delete_run. destruct (parse_limit (self s) args) as [target count].
  rewrite delete_messages_run. intros H.
  destruct (negb (truthy target)); [simplify_eq; cbn; split_and!; try done; auto|].
  destruct (truthy (current (self s))) eqn:Hcur; cbn in H;
    [|simplify_eq; cbn; split_and!; try done; auto].
  destruct (py_in target message_targets);
    [|simplify_eq; cbn; split_and!; try done; auto].
  destruct (client_get_all_messages _ _ _ _) as [[[|m msgs]|e] w] eqn:Hfetch;
    cbn zeta in H.
  - simplify_eq; cbn; split_and!; try done.
    intros chat ids [?|?]%new_call_inv; [auto|done].
  - destruct (client_delete_messages _ _ _ _) as [[deleted|e] w2];
      simplify_eq; cbn; split_and!; try done;
      intros chat ids [?|[?|Heq]]%new_call_inv2; [auto|done| |auto|done|];
      simplify_eq; right; exists count, (m :: msgs), w; done.
  - simplify_eq; cbn; split_and!; try done.
    intros chat ids [?|?]%new_call_inv; [auto|done].
Qed.

Lemma cmd_sel_effect args s r s' :
  cmd_sel args s = (r, s') →
  running (self s') = running (self s) ∧ limit (self s') = limit (self s)
  ∧ client (self s') = client (self s)
  ∧ now s' = now s ∧ fs s' = fs s
  ∧ (∀ e, r = Raise e → stdout s' = stdout s ∧ self s' = self s)
  ∧ (∀ chat ids, DeleteMessages chat ids ∈ calls s' → DeleteMessages chat ids ∈ calls s).
Proof.
  destruct args as [|a args].
  { cbn. run. intros ?; simplify_eq; cbn. by split_and!. }
  rewrite cmd_sel_run by done. intros H.
  repeat case_match; simplify_eq; cbn; split_and!; try done; no_new_delete.
Qed.

Lemma lower_ascii_idempotent (c : ascii) : lower_ascii (lower_ascii c) = lower_ascii c.
Proof. destruct c as [[] [] [] [] [] [] [] []]; reflexivity. Qed.

Lemma ascii_lower_idempotent (w : string) : ascii_lower (ascii_lower w) = ascii_lower w.
Proof.
  induction w as [|c w IH]; [done|]. cbn.
  by rewrite lower_ascii_idempotent, IH.
Qed.

Lemma parse_limit_lower (c : Cli W) (t t' : string) rest :
  lower t = lower t' → parse_limit c (t :: rest) = parse_limit c (t' :: rest).
Proof. intros H. cbn. by rewrite H. Qed.

(** X3. Except for [select], whose arguments are the name of the chat as
    typed, a command does not depend on the case of its first two words:
    the command word and the target are lower-cased, by the [str.lower] of
    the interpreter, before they are looked at. *)
Theorem first_two_words_any_case (p p' t t' : string) rest s :
  lower p = lower p' →
  lower t = lower t' →
  lower p ≠ "select" →
  dispatch (p :: t :: rest) s = dispatch (p' :: t' :: rest) s.
Proof.
  intros Hp Ht Hsel. unfold dispatch. rewrite <-Hp.
  destruct (String.eqb_spec (lower p) "select") as [|_]; [done|].
  repeat case_match; try done;
    rewrite ?cmd_list_run, ?cmd_save_run, ?cmd_delete_run;
    by rewrite (parse_limit_lower (self s) t t' rest Ht).
Qed.

Lemma dispatch_session parts s r s' :
  dispatch parts s = (r, s') →
  limit (self s') = limit (self s)
  ∧ client (self s') = client (self s)
  ∧ (current (self s') ≠ current (self s) →
       ∃ p args, parts = p :: args ∧ lower p = "select" ∧ r = Ok tt)
  ∧ (running (self s') ≠ running (self s) →
       ∃ p args, parts = p :: args ∧ lower p = "exit").
Proof.
  destruct parts as [|p args]; cbn [dispatch].
  { unfold raise. intros ?; simplify_eq. by split_and!. }
  intros H.
  destruct (String.eqb_spec (lower p) "select") as [Hsel|_].
  { apply cmd_sel_effect in H as (Hrun & Hlim & Hcl & _ & _ & Hraise & _).
    split_and!; [done|done| |by rewrite Hrun].
    intros Hcur. exists p, args. split_and!; [done..|].
    destruct r as [[]|e]; [done|].
    destruct (Hraise e eq_refl) as [_ Hself]. by rewrite Hself in Hcur. }
  destruct (String.eqb_spec (lower p) "list") as [_|_].
  { apply cmd_list_effect in H as (-> & _). by split_and!. }
  destruct (String.eqb_spec (lower p) "save") as [_|_].
  { apply cmd_save_effect in H as (-> & _). by split_and!. }
  destruct (String.eqb_spec (lower p) "delete") as [_|_].
  { apply cmd_delete_effect in H as (-> & _). by split_and!. }
  destruct (String.eqb_spec (lower p) "exit") as [Hexit|_].
  { unfold set_running, modify in H. simplify_eq. cbn.
    split_and!; [done..|]. intros _. by exists p, args. }
  destruct (String.eqb_spec (lower p) "help") as [_|_];
    unfold cmd_help, print, modify in H; simplify_eq; by split_and!.
Qed.

(** X4. A command never changes the limit and the client of the session;
    only a [select] that succeeds changes the selection, and only [exit]
    changes the running flag. *)
Theorem dispatch_keeps_session parts s r s' :
  dispatch parts s = (r, s') →
  limit (self s') = limit (self s)
  ∧ client (self s') = client (self s)
  ∧ (current (self s') ≠ current (self s) →
       ∃ p args, parts = p :: args ∧ lower p = "select" ∧ r = Ok tt)
  ∧ (running (self s') ≠ running (self s) →
       ∃ p args, parts = p :: args ∧ lower p = "exit").
Proof. apply dispatch_session. Qed.

(** X5. A command that ends with an exception has printed nothing and has
    left the session as it was. *)
Theorem failed_command_prints_nothing parts s e s' :
  dispatch parts s = (Raise e, s') →
  stdout s' = stdout s ∧ self s' = self s.
Proof.
  destruct parts as [|p args]; cbn [dispatch].
  { unfold raise. intros ?; by simplify_eq. }
  intros H.
  destruct (String.eqb_spec (lower p) "select") as [_|_].
  { apply cmd_sel_effect in H as (_ & _ & _ & _ & _ & Hraise & _). eauto. }
  destruct (String.eqb_spec (lower p) "list") as [_|_].
  { apply cmd_list_effect in H as (? & _ & _ & Hraise & _). eauto. }
  destruct (String.eqb_spec (lower p) "save") as [_|_].
  { apply cmd_save_effect in H as (? & _ & _ & Hraise & _). eauto. }
  destruct (String.eqb_spec (lower p) "delete") as [_|_].
  { apply cmd_delete_effect in H as (? & _ & _ & Hraise & _). eauto. }
  destruct (String.eqb_spec (lower p) "exit") as [_|_].
  { unfold set_running, modify in H. simplify_eq. }
  destruct (String.eqb_spec (lower p) "help") as [_|_];
    unfold cmd_help, print, modify in H; simplify_eq.
Qed.

(** X6. Only [delete] deletes. A delete call that a command adds to the
    record of calls comes from the command word [delete]; it is made on the
    selected chat, and its identifiers are those of the messages that the
    fetch of the same command returned, of which there is at least one. *)
Theorem only_delete_deletes parts s r s' chat ids :
  dispatch parts s = (r, s') →
  DeleteMessages chat ids ∈ calls s' →
  DeleteMessages chat ids ∈ calls s
  ∨ ∃ p args count msgs w,
      parts = p :: args ∧ lower p = "delete"
      ∧ chat = current (self s) ∧ truthy chat = true
      ∧ client_get_all_messages (client (self s)) chat count (world s) = (Ok msgs, w)
      ∧ msgs ≠ [] ∧ ids = List.map msg_id msgs.
Proof.
  destruct parts as [|p args]; cbn [dispatch].
  { unfold raise. intros ?; simplify_eq. auto. }
  intros H Hin.
  destruct (String.eqb_spec (lower p) "select") as [_|_].
  { apply cmd_sel_effect in H as (_ & _ & _ & _ & _ & _ & Hcalls). auto. }
  destruct (String.eqb_spec (lower p) "list") as [_|_].
  { apply cmd_list_effect in H as (_ & _ & _ & _ & Hcalls). auto. }
  destruct (String.eqb_spec (lower p) "save") as [_|_].
  { apply cmd_save_effect in H as (_ & _ & _ & _ & Hcalls). auto. }
  destruct (String.eqb_spec (lower p) "delete") as [Hdel|_].
  { apply cmd_delete_effect in H as (_ & _ & _ & _ & Hcalls).
    destruct (Hcalls chat ids Hin)
      as [?|(count & msgs & w & Hchat & Hsel & Hfetch & Hne & Hids)]; [auto|].
    right. exists p, args, count, msgs, w. by split_and!. }
  destruct (String.eqb_spec (lower p) "exit") as [_|_].
  { unfold set_running, modify in H. simplify_eq. auto. }
  destruct (String.eqb_spec (lower p) "help") as [_|_];
    unfold cmd_help, print, modify in H; simplify_eq; auto.
Qed.

(** X7. A command other than [save] leaves the file system as it is, and a
    [save] touches at most the directory out and the file of its export. *)
Theorem only_save_writes parts s r s' :
  dispatch parts s = (r, s') →
  (∀ p, p ≠ "out" → p ≠ messages_path (now s) → p ≠ users_path (now s) →
     fs s' !! p = fs s !! p)
  ∧ (fs s' ≠ fs s → ∃ p args, parts = p :: args ∧ lower p = "save").
Proof.
  destruct parts as [|p args]; cbn [dispatch].
  { unfold raise. intros ?; simplify_eq. by split. }
  intros H.
  destruct (String.eqb_spec (lower p) "select") as [_|_].
  { apply cmd_sel_effect in H as (_ & _ & _ & _ & -> & _). by split. }
  destruct (String.eqb_spec (lower p) "list") as [_|_].
  { apply cmd_list_effect in H as (_ & _ & -> & _). by split. }
  destruct (String.eqb_spec (lower p) "save") as [Hsave|_].
  { apply cmd_save_effect in H as (_ & _ & Hfs & _). split; [done|].
    intros _. by exists p, args. }
  destruct (String.eqb_spec (lower p) "delete") as [_|_].
  { apply cmd_delete_effect in H as (_ & _ & -> & _). by split. }
  destruct (String.eqb_spec (lower p) "exit") as [_|_].
  { unfold set_running, modify in H. simplify_eq. by split. }
  destruct (String.eqb_spec (lower p) "help") as [_|_];
    unfold cmd_help, print, modify in H; simplify_eq; by split.
Qed.

Lemma targets_inv (target : pyval) :
  (py_in target message_targets = true →
   truthy target = true)
  ∧ (py_in target user_targets = true →
     truthy target = true ∧ py_in target message_targets = false).
Proof.
  unfold py_in, message_targets, user_targets. split; intros H;
    apply bool_decide_eq_true in H;
    repeat (apply elem_of_cons in H as [->|H]; [done|]);
    by apply elem_of_nil in H.
Qed.

(** X8. With a chat selected, [list messages] prints one line for each
    message fetched, in the order fetched, and [list users] one line for
    each participant; either makes the one call and nothing else. *)
Theorem cmd_list_prints_each args s target count :
  parse_limit (self s) args = (target, count) →
  truthy (current (self s)) = true →
  (py_in target message_targets = true →
   ∀ msgs w,
     client_get_all_messages (client (self s)) (current (self s)) count (world s)
       = (Ok msgs, w) →
     cmd_list args s =
     (Ok tt, mk_State (self s) w (stdout s ++ List.map message_line msgs)
               (calls s ++ [GetAllMessages (current (self s)) count]) (fs s) (now s)))
  ∧ (py_in target user_targets = true →
     ∀ users w,
       client_get_users (client (self s)) (current (self s)) (world s) = (Ok users, w) →
       cmd_list args s =
       (Ok tt, mk_State (self s) w (stdout s ++ List.map user_line users)
                 (calls s ++ [GetUsers (current (self s))]) (fs s) (now s))).
Proof.
  intros Hparse Hcur. rewrite cmd_list_run, Hparse, Hcur. cbn [negb].
  destruct (targets_inv target) as [Hm Hu]. split.
  - intros Htarget msgs w Hfetch.
    by rewrite (Hm Htarget), Htarget, list_messages_run, Hfetch.
  - intros Htarget users w Hfetch. destruct (Hu Htarget) as [-> ->].
    by rewrite Htarget, list_users_run, Hfetch.
Qed.

(** X9. The count has no part in [list users] and [save users]: with a
    count that [int] reads the command does what it does without one. *)
Theorem count_ignored_for_users (t n : string) rest k s :
  py_in (PyStr (lower t)) user_targets = true →
  py_int n = Some k →
  cmd_list (t :: n :: rest) s = cmd_list [t] s
  ∧ cmd_save (t :: n :: rest) s = cmd_save [t] s.
Proof.
  intros Htarget Hn. rewrite !cmd_list_run, !cmd_save_run. cbn [parse_limit].
  rewrite Hn. destruct (targets_inv (PyStr (lower t))) as [_ Hu].
  destruct (Hu Htarget) as [-> ->]. by rewrite Htarget.
Qed.

End Commands.

(** * Further facts: the exports *)

Section Exports.
Context {interp : Builtins} {W : Type}.
Implicit Types (s : State W).

Lemma user_record_wf (u : User) : wf_json (user_record u).
Proof.
  unfold user_record. cbn.
  split; [|by destruct (user_username u), (user_first_name u), (user_last_name u)].
  apply (bool_decide_unpack _). by vm_compute.
Qed.

Lemma users_export_wf (users : list User) :
  wf_json (JArr (List.map user_record users)).
Proof.
  cbn [wf_json]. apply wf_items.
  induction users as [|u users IH]; constructor; [apply user_record_wf|done].
Qed.

Lemma users_path_not_out (ts : string) : users_path ts ≠ "out".
Proof. unfold users_path. discriminate. Qed.

Lemma messages_path_not_users_path (ts ts' : string) :
  messages_path ts ≠ users_path ts'.
Proof. unfold messages_path, users_path. discriminate. Qed.

(** What [write_export] leaves when the file system lets it through. *)
Lemma write_export_ok (path what : string) data s :
  path ≠ "out" →
  (fs s !! "out" = None ∨ fs s !! "out" = Some Dir) →
  (fs s !! path = None ∨ ∃ old, fs s !! path = Some (File old)) →
  ∃ s', write_export path what data s = (Ok tt, s')
    ∧ fs s' = <[path := File (dumps (JArr data))]> (<["out" := Dir]> (fs s))
    ∧ now s' = now s ∧ self s' = self s.
Proof.
  intros Hpath Hout Hfile. unfold write_export.
  rewrite lookup_insert_ne by done.
  destruct Hout as [-> | ->]; destruct Hfile as [-> | [old ->]]; eauto.
Qed.

Lemma write_export_Ok_inv (path what : string) data s s' :
  write_export path what data s = (Ok tt, s') →
  fs s' !! path = Some (File (dumps (JArr data))) ∧ now s' = now s.
Proof.
  unfold write_export. intros H.
  repeat case_match; simplify_eq; cbn; by rewrite lookup_insert_eq.
Qed.

(** X10. [save users] writes a file that reads back as an array with one
    object for each participant, in order, with the keys id, username,
    first_name and last_name; a chat without participants gives the empty
    array. *)
Theorem save_users_round_trip chat_id s users w :
  client_get_users (client (self s)) chat_id (world s) = (Ok users, w) →
  (fs s !! "out" = None ∨ fs s !! "out" = Some Dir) →
  (fs s !! users_path (now s) = None
   ∨ ∃ old, fs s !! users_path (now s) = Some (File old)) →
  ∃ s' items,
    save_users chat_id s = (Ok tt, s')
    ∧ load_from (users_path (now s)) s' = (Ok (JArr items), s')
    ∧ (users = [] → items = [])
    ∧ Forall2 (λ u item,
        item = JObj [("id", JInt (user_id u));
                     ("username", to_json (user_username u));
                     ("first_name", to_json (user_first_name u));
                     ("last_name", to_json (user_last_name u))]) users items.
Proof.
  intros Hfetch Hout Hfile. rewrite save_users_run, Hfetch.
  destruct (write_export_ok (users_path (now s)) "users" (List.map user_record users)
              (called (GetUsers chat_id) w s))
    as (s' & Hrun & Hfs & Hnow & Hself);
    [apply users_path_not_out|done..|].
  exists s', (List.map user_record users). split_and!; [done| | |].
  - unfold load_from. rewrite Hfs, lookup_insert_eq.
    by rewrite loads_dumps by apply users_export_wf.
  - by intros ->.
  - clear. induction users as [|u users IH]; by constructor.
Qed.

(** X11. Two exports made within the same second. A second [save messages]
    replaces the file of the first: the file reads back as the second
    fetch. A [save users] leaves the file of [save messages] as it is. *)
Theorem exports_in_the_same_second chat_id n s msgs w s1 :
  client_get_all_messages (client (self s)) chat_id n (world s) = (Ok msgs, w) →
  save_messages chat_id n s = (Ok tt, s1) →
  (∀ chat_id' n' msgs' w' s2,
     client_get_all_messages (client (self s1)) chat_id' n' (world s1) = (Ok msgs', w') →
     save_messages chat_id' n' s1 = (Ok tt, s2) →
     fst (load_from (messages_path (now s)) s2)
     = Ok (JArr (List.map message_record msgs')))
  ∧ (∀ chat_id' r s2,
       save_users chat_id' s1 = (r, s2) →
       fst (load_from (messages_path (now s)) s2)
       = Ok (JArr (List.map message_record msgs))).
Proof.
  intros Hfetch Hsave.
  assert (now s1 = now s ∧ fs s1 !! messages_path (now s)
          = Some (File (dumps (JArr (List.map message_record msgs))))) as [Hnow Hfile].
  { rewrite save_messages_run, Hfetch in Hsave.
    by apply write_export_Ok_inv in Hsave as [? ?]. }
  split.
  - intros chat_id' n' msgs' w' s2 Hfetch' Hsave'.
    rewrite save_messages_run, Hfetch', Hnow in Hsave'.
    apply write_export_Ok_inv in Hsave' as [Hfile' _].
    unfold load_from. rewrite Hfile'.
    by rewrite loads_dumps by apply export_wf.
  - intros chat_id' r s2 Hsave'. unfold load_from.
    assert (fs s2 !! messages_path (now s) = fs s1 !! messages_path (now s)) as ->.
    { rewrite save_users_run in Hsave'.
      destruct (client_get_users _ _ _) as [[users|e] w']; [|by simplify_eq].
      apply write_export_effect in Hsave' as (_ & _ & _ & _ & _ & Hfs).
      apply Hfs; [apply messages_path_not_out|apply messages_path_not_users_path]. }
    rewrite Hfile. by rewrite loads_dumps by apply export_wf.
Qed.

End Exports.

(** * Further facts: the loop *)

Section Splitting.

Lemma sapp_cons c (a b : string) : String c a +:+ b = String c (a +:+ b).
Proof. reflexivity. Qed.

Lemma sapp_nil_l (b : string) : "" +:+ b = b.
Proof. reflexivity. Qed.

Lemma plain_char_inv c :
  plain_char c = true →
  shlex_space c = false ∧ shlex_quote c = false ∧ shlex_escape c = false.
Proof.
  unfold plain_char. destruct (shlex_space c), (shlex_quote c), (shlex_escape c); done.
Qed.

Lemma emit_error token quoted msg :
  emit token quoted (ValueError msg) = ValueError msg.
Proof. unfold emit. by case_match. Qed.

Lemma all_space_split (s : string) : all_space s = true → shlex_split s = Parts [].
Proof.
  unfold shlex_split. induction s as [|c s IH]; [done|]. cbn.
  intros [-> Hs]%andb_true_iff. auto.
Qed.

Lemma read_plain (w rest token : string) quoted :
  plain w = true →
  read_tokens InWord token quoted (w +:+ rest)
  = read_tokens InWord (token +:+ w) quoted rest.
Proof.
  revert token. induction w as [|c w IH]; intros token.
  - intros _. by rewrite sapp_nil_r.
  - cbn [plain]. intros [Hc Hw]%andb_true_iff.
    destruct (plain_char_inv c Hc) as (Hs & Hq & He).
    rewrite sapp_cons. cbn [read_tokens]. rewrite Hs, Hq, He, IH by done.
    unfold snoc_char. by rewrite sapp_assoc.
Qed.

Lemma read_word (w rest : string) :
  plain_word w = true →
  read_tokens InBlank "" false (w +:+ rest) = read_tokens InWord w false rest.
Proof.
  unfold plain_word. destruct w as [|c w]; [done|]. cbn [plain String.eqb negb andb].
  intros [Hc Hw]%andb_true_iff.
  destruct (plain_char_inv c Hc) as (Hs & Hq & He).
  rewrite sapp_cons. cbn [read_tokens]. rewrite Hs, Hq, He.
  by rewrite read_plain.
Qed.

Lemma join_cons_cons (sep a b : string) (l : list string) :
  join sep (a :: b :: l) = a +:+ sep +:+ join sep (b :: l).
Proof. reflexivity. Qed.

(** Plain words joined by single spaces are split into the same words. *)
Lemma split_words (ws : list string) :
  Forall (λ w, plain_word w = true) ws → shlex_split (join " " ws) = Parts ws.
Proof.
  unfold shlex_split. induction 1 as [|w ws Hw Hws IH]; [done|].
  assert (String.eqb w "" = false) as Hne.
  { unfold plain_word in Hw. by destruct (String.eqb w ""). }
  destruct ws as [|w2 ws].
  - cbn [join]. rewrite <-(sapp_nil_r w) at 1. rewrite read_word by done.
    cbn. unfold emit. by rewrite Hne.
  - rewrite join_cons_cons, read_word by done.
    rewrite sapp_cons. cbn [read_tokens].
    change (shlex_space " ") with true. cbn match.
    change ("" +:+ join " " (w2 :: ws)) with (join " " (w2 :: ws)).
    rewrite IH. unfold emit. by rewrite Hne.
Qed.

Lemma inner_char_inv q c :
  shlex_quote q = true → inner_char c = true →
  Ascii.eqb c q = false ∧ shlex_escape c = false.
Proof.
  unfold inner_char. intros Hq [Hc He]%andb_true_iff.
  apply negb_true_iff in Hc, He. split; [|done].
  destruct (Ascii.eqb_spec c q) as [->|]; [congruence|done].
Qed.

Lemma read_quoted q (body rest token : string) quoted :
  shlex_quote q = true →
  all_inner body = true →
  read_tokens (InQuote q) token quoted (body +:+ String q rest)
  = read_tokens InWord (token +:+ body) true rest.
Proof.
  intros Hq. revert token quoted. induction body as [|c body IH]; intros token quoted.
  - intros _. rewrite sapp_nil_l. cbn [read_tokens]. rewrite Ascii.eqb_refl.
    by rewrite sapp_nil_r.
  - cbn [all_inner]. intros [Hc Hbody]%andb_true_iff.
    destruct (inner_char_inv q c Hq Hc) as [Hne He].
    rewrite sapp_cons. cbn [read_tokens]. rewrite Hne, He. cbn [andb].
    rewrite IH by done. unfold snoc_char. by rewrite sapp_assoc.
Qed.

Lemma read_unclosed q (body token : string) quoted :
  shlex_quote q = true →
  all_inner body = true →
  read_tokens (InQuote q) token quoted body = ValueError "No closing quotation".
Proof.
  intros Hq. revert token quoted. induction body as [|c body IH]; intros token quoted.
  - done.
  - cbn [all_inner]. intros [Hc Hbody]%andb_true_iff.
    destruct (inner_char_inv q c Hq Hc) as [Hne He].
    cbn [read_tokens]. rewrite Hne, He. cbn [andb]. by apply IH.
Qed.

Lemma plain_all_inner (w : string) : plain w = true → all_inner w = true.
Proof.
  induction w as [|c w IH]; [done|]. cbn.
  intros [Hc Hw]%andb_true_iff.
  destruct (plain_char_inv c Hc) as (_ & Hq & He).
  unfold inner_char. by rewrite Hq, He, IH.
Qed.

Lemma all_inner_app (a b : string) :
  all_inner a = true → all_inner b = true → all_inner (a +:+ b) = true.
Proof.
  induction a as [|c a IH]; [done|]. rewrite sapp_cons. cbn.
  intros [-> Ha]%andb_true_iff Hb. by apply IH.
Qed.

Lemma join_all_inner (ws : list string) :
  Forall (λ w, plain_word w = true) ws → all_inner (join " " ws) = true.
Proof.
  assert (∀ w, plain_word w = true → all_inner w = true) as Hword.
  { intros w [_ Hw]%andb_true_iff. by apply plain_all_inner. }
  induction 1 as [|w ws Hw Hws IH]; [done|].
  destruct ws as [|w2 ws]; [by apply Hword|].
  rewrite join_cons_cons. apply all_inner_app; [by apply Hword|].
  by apply (all_inner_app " ").
Qed.

(** A line of plain words that ends in a quotation: the words, then the
    text between the quotes as one word. *)
Lemma split_words_quoted (ws : list string) q (body : string) :
  Forall (λ w, plain_word w = true) ws →
  shlex_quote q = true →
  all_inner body = true →
  shlex_split (join " " ws +:+ " " +:+ String q (body +:+ String q ""))
  = Parts (ws ++ [body]).
Proof.
  intros Hws Hq Hbody.
  assert (read_tokens InBlank "" false (String q (body +:+ String q ""))
          = Parts [body]) as Hquote.
  { cbn [read_tokens].
    assert (shlex_space q = false ∧ shlex_escape q = false) as [-> ->].
    { revert Hq. unfold shlex_quote, shlex_space, shlex_escape.
      destruct q as [[] [] [] [] [] [] [] []]; by vm_compute. }
    rewrite Hq, read_quoted, sapp_nil_l by done.
    cbn [read_tokens]. unfold emit. by rewrite orb_true_r. }
  unfold shlex_split. induction Hws as [|w ws Hw Hws IH].
  - cbn [join app]. change ("" +:+ " " +:+ ?x) with (String " " x).
    cbn [read_tokens]. change (shlex_space " ") with true. cbn match. exact Hquote.
  - assert (String.eqb w "" = false) as Hne.
    { unfold plain_word in Hw. by destruct (String.eqb w ""). }
    destruct ws as [|w2 ws].
    + cbn [join app]. rewrite read_word by done.
      rewrite sapp_cons. cbn [read_tokens].
      change (shlex_space " ") with true. cbn match.
      change ("" +:+ ?x) with x. rewrite Hquote. unfold emit. by rewrite Hne.
    + rewrite join_cons_cons, !sapp_assoc, read_word by done.
      rewrite sapp_cons. cbn [read_tokens].
      change (shlex_space " ") with true. cbn match.
      change ("" +:+ ?x) with x. rewrite IH. unfold emit. by rewrite Hne.
Qed.

(** A line in which a quotation opens and does not close. *)
Lemma split_unclosed (pre : string) q (body : string) :
  (∀ st token quoted, st = InBlank ∨ st = InWord →
     read_tokens st token quoted (String q body) = ValueError "No closing quotation") →
  ∀ st token quoted, st = InBlank ∨ st = InWord →
    Forall (λ c, plain_char c = true ∨ shlex_space c = true) (list_ascii_of_string pre) →
    read_tokens st token quoted (pre +:+ String q body)
    = ValueError "No closing quotation".
Proof.
  intros Hend. induction pre as [|c pre IH]; intros st token quoted Hst Hpre.
  - by apply Hend.
  - cbn [list_ascii_of_string] in Hpre. apply Forall_cons in Hpre as [Hc Hpre].
    rewrite sapp_cons.
    destruct Hst as [-> | ->]; cbn [read_tokens];
      (destruct Hc as [Hc|Hc];
       [destruct (plain_char_inv c Hc) as (-> & -> & ->); apply IH; auto
       |rewrite Hc; rewrite ?IH by auto; by rewrite ?emit_error]).
Qed.

End Splitting.

Section LoopFacts.
Context {interp : Builtins} {W : Type}.
Implicit Types (s : State W) (stdin rest : list string).

Lemma run_stopped stdin s :
  running (self s) = false → run stdin s = (Returns stdin, s).
Proof. intros H. destruct stdin; cbn; by rewrite H. Qed.

Lemma run_cons (line : string) rest s :
  running (self s) = true →
  run (line :: rest) s =
  if String.eqb line "" then run rest (prompted s)
  else
    match shlex_split line with
    | ValueError msg => run rest (printed ("Parse error: " +:+ msg) (prompted s))
    | Parts parts =>
        match dispatch parts (prompted s) with
        | (Ok _, s2) => run rest s2
        | (Raise e, s2) => (Raises (FromCommand e) rest, s2)
        end
    end.
Proof. intros H. cbn [run]. by rewrite H. Qed.

Lemma cmd_sel_joined (ws : list string) s :
  ws ≠ [] → cmd_sel ws s = cmd_sel [join " " ws] s.
Proof. intros Hws. by rewrite !cmd_sel_run. Qed.

Lemma select_is_plain : plain_word "select" = true.
Proof. reflexivity. Qed.

Lemma select_line_not_blank (x : string) : String.eqb ("select " +:+ x) "" = false.
Proof. reflexivity. Qed.

(** X12. The name of a chat may be typed as plain words or inside single
    or double quotes: [select Team Chat], [select "Team Chat"] and
    [select 'Team Chat'] do the same. *)
Theorem select_quoted_or_not (ws : list string) q rest s :
  running (self s) = true →
  ws ≠ [] →
  Forall (λ w, plain_word w = true) ws →
  shlex_quote q = true →
  run (("select " +:+ String q (join " " ws +:+ String q "")) :: rest) s
  = run (("select " +:+ join " " ws) :: rest) s.
Proof.
  intros Hrun Hne Hws Hq. rewrite !run_cons by done.
  rewrite !select_line_not_blank.
  assert (shlex_split ("select " +:+ String q (join " " ws +:+ String q ""))
          = Parts ["select"; join " " ws]) as ->.
  { apply (split_words_quoted ["select"]);
      [by constructor|done|by apply join_all_inner]. }
  assert (shlex_split ("select " +:+ join " " ws) = Parts ("select" :: ws)) as ->.
  { rewrite <-split_words by (by constructor). by destruct ws. }
  assert (dispatch ["select"; join " " ws] (prompted s)
          = dispatch ("select" :: ws) (prompted s)) as ->; [|done].
  cbn [dispatch]. rewrite (lower_ascii_text "select" eq_refl).
  change (cmd_sel [join " " ws] (prompted s) = cmd_sel ws (prompted s)).
  by rewrite (cmd_sel_joined ws).
Qed.

Lemma quote_opens q (body : string) :
  shlex_quote q = true →
  all_inner body = true →
  ∀ st token quoted, st = InBlank ∨ st = InWord →
    read_tokens st token quoted (String q body) = ValueError "No closing quotation".
Proof.
  intros Hq Hbody st token quoted Hst.
  assert (shlex_space q = false ∧ shlex_escape q = false) as [Hs He].
  { revert Hq. unfold shlex_quote, shlex_space, shlex_escape.
    destruct q as [[] [] [] [] [] [] [] []]; by vm_compute. }
  destruct Hst as [-> | ->]; cbn [read_tokens]; rewrite Hs, ?He, Hq;
    by apply read_unclosed.
Qed.

(** X13. A line of plain characters and blanks up to a quote character,
    after which it holds no quote character and no backslash, is reported
    and skipped: the quotation does not close, the shell prints the parse
    error and goes on with the next line, the session being as before. *)
Theorem unclosed_quote_is_reported (pre : string) q (body : string) rest s :
  running (self s) = true →
  Forall (λ c, plain_char c = true ∨ shlex_space c = true) (list_ascii_of_string pre) →
  shlex_quote q = true →
  all_inner body = true →
  run ((pre +:+ String q body) :: rest) s
  = run rest (printed "Parse error: No closing quotation" (prompted s)).
Proof.
  intros Hrun Hpre Hq Hbody. rewrite run_cons by done.
  assert (String.eqb (pre +:+ String q body) "" = false) as -> by (by destruct pre).
  unfold shlex_split.
  by rewrite (split_unclosed pre q body (quote_opens q body Hq Hbody)) by auto.
Qed.

(** X14. A line that is not empty and holds only what [shlex] takes for
    white space (blanks, tabs, carriage returns and line feeds) ends the
    loop with [IndexError]: it splits into no word, and the first word is
    asked for. The lines after it are left unread. *)
Theorem whitespace_line_raises_IndexError (line : string) rest s :
  running (self s) = true →
  line ≠ "" →
  all_space line = true →
  run (line :: rest) s = (Raises (FromCommand IndexError) rest, prompted s).
Proof.
  intros Hrun Hne Hspace. rewrite run_cons by done.
  destruct (String.eqb_spec line "") as [|_]; [done|].
  by rewrite all_space_split.
Qed.

(** X15. The loop returns only after an [exit]: when it returns, the
    running flag is off, and if it was on at the start, the input holds a
    line whose first word is [exit] in some case, and the lines after that
    one are the lines left unread. *)
Theorem run_returns_only_after_exit stdin s unread s' :
  run stdin s = (Returns unread, s') →
  running (self s') = false
  ∧ (running (self s) = true →
     ∃ pre line w args,
       stdin = pre ++ line :: unread
       ∧ shlex_split line = Parts (w :: args) ∧ lower w = "exit").
Proof.
  revert s. induction stdin as [|line rest IH]; intros s Hend.
  - destruct (running (self s)) eqn:Hrun.
    + cbn in Hend. by rewrite Hrun in Hend.
    + rewrite run_stopped in Hend by done. by simplify_eq.
  - destruct (running (self s)) eqn:Hrun.
    2:{ rewrite run_stopped in Hend by done. by simplify_eq. }
    rewrite run_cons in Hend by done.
    assert (∀ s1, running (self s1) = true → run rest s1 = (Returns unread, s') →
              running (self s') = false
              ∧ (true = true → ∃ pre line' w args,
                   line :: rest = pre ++ line' :: unread
                   ∧ shlex_split line' = Parts (w :: args) ∧ lower w = "exit"))
      as Hlater.
    { intros s1 Hrun1 Hend1. destruct (IH s1 Hend1) as [Hoff Hexit]. split; [done|].
      intros _. destruct (Hexit Hrun1) as (pre & line' & w & args & -> & Hsplit & Hw).
      by exists (line :: pre), line', w, args. }
    destruct (String.eqb line ""); [by apply (Hlater (prompted s))|].
    destruct (shlex_split line) as [parts|msg] eqn:Hsplit;
      [|by apply (Hlater (printed ("Parse error: " +:+ msg) (prompted s)))].
    destruct (dispatch parts (prompted s)) as [[[]|e] s2] eqn:Hcmd; [|done].
    destruct (running (self s2)) eqn:Hrun2; [by apply (Hlater s2)|].
    rewrite run_stopped in Hend by done. simplify_eq. split; [done|]. intros _.
    destruct (dispatch_session parts (prompted s) (Ok tt) s' Hcmd)
      as (_ & _ & _ & Hexit).
    destruct Hexit as (p & args & -> & Hp); [cbn; congruence|].
    by exists [], line, p, args.
Qed.

(** X16. An exception leaves the loop only at the end of the input, as the
    [EOFError] of [input], or out of a command: then the state is the one
    the command left, and the lines after the line of that command are
    left unread. *)
Theorem run_raises_only_from stdin s e unread s' :
  run stdin s = (Raises e unread, s') →
  (e = EOFError ∧ unread = [])
  ∨ ∃ pre line parts e' s0,
      stdin = pre ++ line :: unread
      ∧ shlex_split line = Parts parts
      ∧ e = FromCommand e'
      ∧ dispatch parts s0 = (Raise e', s').
Proof.
  revert s. induction stdin as [|line rest IH]; intros s Hend.
  - destruct (running (self s)) eqn:Hrun.
    + cbn in Hend. rewrite Hrun in Hend. simplify_eq. by left.
    + by rewrite run_stopped in Hend.
  - destruct (running (self s)) eqn:Hrun.
    2:{ by rewrite run_stopped in Hend. }
    rewrite run_cons in Hend by done.
    assert (∀ s1, run rest s1 = (Raises e unread, s') →
              (e = EOFError ∧ unread = [])
              ∨ ∃ pre line' parts e' s0,
                  line :: rest = pre ++ line' :: unread
                  ∧ shlex_split line' = Parts parts
                  ∧ e = FromCommand e'
                  ∧ dispatch parts s0 = (Raise e', s')) as Hlater.
    { intros s1 Hend1.
      destruct (IH s1 Hend1) as [?|(pre & line' & parts & e' & s0 & -> & ? & ? & ?)];
        [by left|].
      right. by exists (line :: pre), line', parts, e', s0. }
    destruct (String.eqb line ""); [by apply (Hlater (prompted s))|].
    destruct (shlex_split line) as [parts|msg] eqn:Hsplit;
      [|by apply (Hlater (printed ("Parse error: " +:+ msg) (prompted s)))].
    destruct (dispatch parts (prompted s)) as [[[]|e'] s2] eqn:Hcmd;
      [by apply (Hlater s2)|].
    simplify_eq. right. by exists [], line, parts, e', (prompted s).
Qed.

End LoopFacts.

(** * Further facts, on the service in memory *)

Lemma demo_newest_first : newest_first (acc_history demo_account).
Proof.
  intros i j mi mj di dj Hij Hi Hj Hdi Hdj.
  destruct i as [|[|[|i]]], j as [|[|[|j]]]; try lia;
    cbn in Hi, Hj; simplify_eq; cbn in Hdi, Hdj; simplify_eq; reflexivity.
Qed.

Lemma messages_between_dates_complete_witness :
  fst (messages_between_dates memory_sdk (PyInt 42) (utc 2024 3 1 0 0 0)
         (utc 2024 3 31 0 0 0) PyNone (start_state new_cli demo_account))
  = Ok (List.filter (in_range (utc 2024 3 1 0 0 0) (utc 2024 3 31 0 0 0))
          (acc_history demo_account)).
Proof.
  apply (messages_between_dates_complete memory_sdk (PyInt 42) (utc 2024 3 1 0 0 0)
           (utc 2024 3 31 0 0 0) PyNone (start_state new_cli demo_account)
           (acc_history demo_account) demo_account).
  - reflexivity.
  - repeat constructor; eexists; reflexivity.
  - exact demo_newest_first.
Defined.

Lemma messages_between_dates_undated_witness :
  messages_between_dates memory_sdk (PyInt 42) (utc 2024 3 1 0 0 0)
    (utc 2024 3 31 0 0 0) PyNone (start_state new_cli service_account)
  = (Raise TypeError,
     mk_State new_cli service_account
       ([] ++ List.map (info_line (PyInt 42)) (acc_history service_account))
       [] ∅ "20240310120000").
Proof.
  apply (messages_between_dates_undated memory_sdk (PyInt 42) (utc 2024 3 1 0 0 0)
           (utc 2024 3 31 0 0 0) PyNone (start_state new_cli service_account)
           [mk_Message 21 (PyInt 7) (PyStr "line one
line two") (Some (mk_datetime 2024 3 9 18 0 0 250000))]
           (mk_Message 20 PyNone PyNone None) [] service_account).
  - reflexivity.
  - repeat constructor. eexists; reflexivity.
  - reflexivity.
Defined.

Lemma first_two_words_any_case_witness :
  dispatch ["LIST"; "Messages"; "2"] (start_state (selected (PyInt 42) memory_facade) demo_account)
  = dispatch ["list"; "messages"; "2"] (start_state (selected (PyInt 42) memory_facade) demo_account).
Proof.
  apply (first_two_words_any_case (interp := ascii_builtins) "LIST" "list" "Messages" "messages" ["2"]).
  - reflexivity.
  - reflexivity.
  - vm_compute. discriminate.
Defined.

Lemma dispatch_keeps_session_witness :
  limit (self (snd (dispatch ["select"; "Team Chat"] (start_state new_cli demo_account))))
  = PyInt 1000
  ∧ current (self (snd (dispatch ["select"; "Team Chat"] (start_state new_cli demo_account))))
    = PyInt 42
  ∧ ∃ p args, ["select"; "Team Chat"] = p :: args ∧ lower p = "select"
      ∧ fst (dispatch ["select"; "Team Chat"] (start_state new_cli demo_account)) = Ok tt.
Proof.
  destruct (dispatch_keeps_session (interp := ascii_builtins) ["select"; "Team Chat"]
              (start_state new_cli demo_account)
              (fst (dispatch ["select"; "Team Chat"] (start_state new_cli demo_account)))
              (snd (dispatch ["select"; "Team Chat"] (start_state new_cli demo_account)))
              (surjective_pairing _)) as (Hlimit & _ & Hcurrent & _).
  split; [exact Hlimit|]. split; [reflexivity|].
  apply Hcurrent. vm_compute. discriminate.
Defined.

Lemma failed_command_prints_nothing_witness :
  fst (dispatch ["list"; "messages"]
         (start_state (selected (PyInt 42) (Client_as_is memory_sdk)) demo_account))
  = Raise (AttributeError "get_all_messages")
  ∧ stdout (snd (dispatch ["list"; "messages"]
                   (start_state (selected (PyInt 42) (Client_as_is memory_sdk)) demo_account)))
    = []
  ∧ self (snd (dispatch ["list"; "messages"]
                 (start_state (selected (PyInt 42) (Client_as_is memory_sdk)) demo_account)))
    = selected (PyInt 42) (Client_as_is memory_sdk).
Proof.
  split; [reflexivity|].
  apply (failed_command_prints_nothing (interp := ascii_builtins) ["list"; "messages"]
           (start_state (selected (PyInt 42) (Client_as_is memory_sdk)) demo_account)
           (AttributeError "get_all_messages")).
  reflexivity.
Defined.

Lemma only_delete_deletes_witness :
  DeleteMessages (PyInt 42) [13; 12; 10] ∈ ([] : list Call)
  ∨ ∃ p args count msgs w,
      ["DELETE"; "m"] = p :: args ∧ lower p = "delete"
      ∧ PyInt 42 = PyInt 42 ∧ truthy (PyInt 42) = true
      ∧ all_messages_in_chat memory_sdk (PyInt 42) count demo_account = (Ok msgs, w)
      ∧ msgs ≠ [] ∧ [13; 12; 10] = List.map msg_id msgs.
Proof.
  apply (only_delete_deletes (interp := ascii_builtins) ["DELETE"; "m"]
           (start_state (selected (PyInt 42) memory_facade) demo_account)
           (fst (dispatch ["DELETE"; "m"]
                   (start_state (selected (PyInt 42) memory_facade) demo_account)))
           (snd (dispatch ["DELETE"; "m"]
                   (start_state (selected (PyInt 42) memory_facade) demo_account)))
           (PyInt 42) [13; 12; 10]).
  - reflexivity.
  - vm_compute. apply list_elem_of_further, list_elem_of_here.
Defined.

Lemma only_save_writes_witness :
  fs (snd (dispatch ["save"; "users"]
             (start_state (selected (PyInt 42) memory_facade) demo_account)))
    !! "notes.txt" = None.
Proof.
  apply (proj1 (only_save_writes (interp := ascii_builtins) ["save"; "users"]
                  (start_state (selected (PyInt 42) memory_facade) demo_account)
                  (fst (dispatch ["save"; "users"]
                          (start_state (selected (PyInt 42) memory_facade) demo_account)))
                  (snd (dispatch ["save"; "users"]
                          (start_state (selected (PyInt 42) memory_facade) demo_account)))
                  (surjective_pairing _)) "notes.txt");
    discriminate.
Defined.

Lemma cmd_list_prints_each_witness :
  cmd_list ["messages"; "2"] (start_state (selected (PyInt 42) memory_facade) demo_account)
  = (Ok tt,
     mk_State (selected (PyInt 42) memory_facade) demo_account
       ([] ++ List.map message_line (take 2 (acc_history demo_account)))
       ([] ++ [GetAllMessages (PyInt 42) (PyInt 2)]) ∅ "20240310120000")
  ∧ cmd_list ["users"] (start_state (selected (PyInt 42) memory_facade) demo_account)
    = (Ok tt,
       mk_State (selected (PyInt 42) memory_facade) demo_account
         ([] ++ List.map user_line (acc_members demo_account))
         ([] ++ [GetUsers (PyInt 42)]) ∅ "20240310120000").
Proof.
  split.
  - apply (proj1 (cmd_list_prints_each (interp := ascii_builtins) ["messages"; "2"]
                    (start_state (selected (PyInt 42) memory_facade) demo_account)
                    (PyStr "messages") (PyInt 2) eq_refl eq_refl) eq_refl
                 (take 2 (acc_history demo_account)) demo_account).
    reflexivity.
  - apply (proj2 (cmd_list_prints_each (interp := ascii_builtins) ["users"]
                    (start_state (selected (PyInt 42) memory_facade) demo_account)
                    (PyStr "users") (PyInt 1000) eq_refl eq_refl) eq_refl
                 (acc_members demo_account) demo_account).
    reflexivity.
Defined.

Lemma count_ignored_for_users_witness :
  cmd_list ["Users"; "3"] (start_state (selected (PyInt 42) memory_facade) demo_account)
  = cmd_list ["Users"] (start_state (selected (PyInt 42) memory_facade) demo_account).
Proof.
  apply (proj1 (count_ignored_for_users (interp := ascii_builtins) "Users" "3" [] 3
                  (start_state (selected (PyInt 42) memory_facade) demo_account)
                  eq_refl eq_refl)).
Defined.

Lemma save_users_round_trip_witness :
  ∃ s' items,
    save_users (PyInt 42) (start_state (selected (PyInt 42) memory_facade) empty_account)
    = (Ok tt, s')
    ∧ load_from (users_path "20240310120000") s' = (Ok (JArr items), s')
    ∧ (acc_members empty_account = [] → items = [])
    ∧ Forall2 (λ u item,
        item = JObj [("id", JInt (user_id u));
                     ("username", to_json (user_username u));
                     ("first_name", to_json (user_first_name u));
                     ("last_name", to_json (user_last_name u))])
        (acc_members empty_account) items.
Proof.
  apply (save_users_round_trip (PyInt 42)
           (start_state (selected (PyInt 42) memory_facade) empty_account)
           (acc_members empty_account) empty_account).
  - reflexivity.
  - left. reflexivity.
  - left. reflexivity.
Defined.

Lemma exports_in_the_same_second_witness :
  fst (load_from (messages_path "20240310120000")
         (snd (save_messages (PyInt 42) (PyInt 1)
                 (snd (save_messages (PyInt 42) (PyInt 2)
                         (start_state (selected (PyInt 42) memory_facade) demo_account))))))
  = Ok (JArr (List.map message_record (take 1 (acc_history demo_account))))
  ∧ fst (load_from (messages_path "20240310120000")
           (snd (save_users (PyInt 42)
                   (snd (save_messages (PyInt 42) (PyInt 2)
                           (start_state (selected (PyInt 42) memory_facade)
                              demo_account))))))
    = Ok (JArr (List.map message_record (take 2 (acc_history demo_account)))).
Proof.
  destruct (exports_in_the_same_second (PyInt 42) (PyInt 2)
              (start_state (selected (PyInt 42) memory_facade) demo_account)
              (take 2 (acc_history demo_account)) demo_account
              (snd (save_messages (PyInt 42) (PyInt 2)
                      (start_state (selected (PyInt 42) memory_facade) demo_account)))
              eq_refl eq_refl) as [Hagain Husers].
  split.
  - apply (Hagain (PyInt 42) (PyInt 1) (take 1 (acc_history demo_account)) demo_account);
      reflexivity.
  - apply (Husers (PyInt 42)
             (fst (save_users (PyInt 42)
                     (snd (save_messages (PyInt 42) (PyInt 2)
                             (start_state (selected (PyInt 42) memory_facade)
                                demo_account)))))).
    reflexivity.
Defined.

Lemma select_quoted_or_not_witness :
  run ["select 'Team Chat'"; "exit"] (start_state new_cli demo_account)
  = run ["select Team Chat"; "exit"] (start_state new_cli demo_account).
Proof.
  apply (select_quoted_or_not (interp := ascii_builtins) ["Team"; "Chat"] "'"%char ["exit"]
           (start_state new_cli demo_account)).
  - reflexivity.
  - discriminate.
  - repeat constructor.
  - reflexivity.
Defined.

Lemma unclosed_quote_is_reported_witness :
  run ["list 'mess"; "exit"] (start_state new_cli demo_account)
  = run ["exit"]
      (printed "Parse error: No closing quotation"
         (prompted (start_state new_cli demo_account))).
Proof.
  apply (unclosed_quote_is_reported (interp := ascii_builtins) "list " "'"%char "mess" ["exit"]
           (start_state new_cli demo_account)).
  - reflexivity.
  - repeat (constructor; [first [left; reflexivity|right; reflexivity]|]).
    constructor.
  - reflexivity.
  - reflexivity.
Defined.

Lemma whitespace_line_raises_IndexError_witness :
  run ["   "; "help"] (start_state new_cli demo_account)
  = (Raises (FromCommand IndexError) ["help"],
     prompted (start_state new_cli demo_account)).
Proof.
  apply (whitespace_line_raises_IndexError (interp := ascii_builtins) "   " ["help"]
           (start_state new_cli demo_account)).
  - reflexivity.
  - discriminate.
  - reflexivity.
Defined.

Lemma run_returns_only_after_exit_witness :
  running (self (snd (run ["help"; "EXIT now"; "list m"]
                        (start_state new_cli demo_account)))) = false
  ∧ ∃ pre line w args,
      ["help"; "EXIT now"; "list m"] = pre ++ line :: ["list m"]
      ∧ shlex_split line = Parts (w :: args) ∧ lower w = "exit".
Proof.
  destruct (run_returns_only_after_exit (interp := ascii_builtins) ["help"; "EXIT now"; "list m"]
              (start_state new_cli demo_account) ["list m"]
              (snd (run (interp := ascii_builtins) ["help"; "EXIT now"; "list m"]
                      (start_state new_cli demo_account)))
              eq_refl) as [Hoff Hexit].
  split; [exact Hoff|]. apply Hexit. reflexivity.
Defined.

Lemma run_raises_only_from_witness :
  (FromCommand (AttributeError "get_users") = EOFError ∧ ["help"] = [])
  ∨ ∃ pre line parts e' s0,
      ["help"; "list users"; "help"] = pre ++ line :: ["help"]
      ∧ shlex_split line = Parts parts
      ∧ FromCommand (AttributeError "get_users") = FromCommand e'
      ∧ dispatch parts s0
        = (Raise e',
           snd (run ["help"; "list users"; "help"]
                  (start_state (selected (PyInt 42) (Client_as_is memory_sdk))
                     demo_account))).
Proof.
  apply (run_raises_only_from (interp := ascii_builtins) ["help"; "list users"; "help"]
           (start_state (selected (PyInt 42) (Client_as_is memory_sdk)) demo_account)).
  reflexivity.
Defined.

(** * Further facts: the count *)

Section Count.
Context {interp : Builtins}.

Lemma lstrip_no_space (l : list ascii) :
  Forall (λ c, is_space c = false) l → lstrip l = l.
Proof. destruct 1 as [|c l Hc _]; [done|]. cbn. by rewrite Hc. Qed.

Lemma strip_no_space (l : list ascii) :
  Forall (λ c, is_space c = false) l → strip l = l.
Proof.
  intros Hl. unfold strip. rewrite (lstrip_no_space l Hl).
  rewrite lstrip_no_space by (by apply Forall_reverse).
  apply reverse_involutive.
Qed.

Lemma digit_not_space c d : digit_of c = Some d → is_space c = false.
Proof.
  destruct c as [[] [] [] [] [] [] [] []]; intros H;
    try (vm_compute in H; discriminate H); reflexivity.
Qed.

Lemma pretty_N_go_no_space (x : N) (s : string) :
  Forall (λ c, is_space c = false) (list_ascii_of_string s) →
  Forall (λ c, is_space c = false) (list_ascii_of_string (pretty_N_go x s)).
Proof.
  revert s. induction (N.lt_wf_0 x) as [x _ IH]; intros s Hs.
  destruct (N.eq_0_gt_0_cases x) as [->|Hx]; [by rewrite pretty_N_go_0|].
  rewrite pretty_N_go_step by done. apply IH; [by apply N.div_lt|].
  cbn. constructor; [|done].
  apply (digit_not_space _ (Z.of_N (x `mod` 10))), digit_of_pretty_N_char.
  apply N.mod_lt. lia.
Qed.

(** Reading the digits [pretty_N_go] writes, from the first one on, amounts
    to having read [x]. *)
Lemma pretty_N_go_int_digits (x : N) (s : string) :
  (0 < x)%N →
  ∃ c t d, pretty_N_go x s = String c t
    ∧ digit_of c = Some d
    ∧ int_digits d true (list_ascii_of_string t)
      = int_digits (Z.of_N x) true (list_ascii_of_string s).
Proof.
  revert s. induction (N.lt_wf_0 x) as [x _ IH]; intros s Hx.
  rewrite pretty_N_go_step by done.
  destruct (N.eq_0_gt_0_cases (x `div` 10)) as [Hq|Hq].
  - rewrite Hq, pretty_N_go_0.
    assert (x < 10)%N as Hlt.
    { destruct (N.lt_ge_cases x 10) as [|Hge]; [done|].
      apply (N.Div0.div_le_mono _ _ 10) in Hge.
      change (10 `div` 10)%N with 1%N in Hge. lia. }
    rewrite N.mod_small by done.
    exists (pretty_N_char x), s, (Z.of_N x).
    split_and!; [done|by apply digit_of_pretty_N_char|done].
  - destruct (IH (x `div` 10)%N) with (s := String (pretty_N_char (x `mod` 10)) s)
      as (c & t & d & Heq & Hc & Hparse); [by apply N.div_lt|done|].
    exists c, t, d. split_and!; [done..|].
    rewrite Hparse. cbn [list_ascii_of_string int_digits].
    rewrite digit_of_pretty_N_char by (apply N.mod_lt; lia).
    f_equal. rewrite (N.div_mod x 10) at 3 by lia. lia.
Qed.

Lemma int_digits_pretty (p : positive) :
  ∃ c t, list_ascii_of_string (pretty (Z.pos p)) = c :: t
    ∧ is_Some (digit_of c)
    ∧ int_digits 0 false (c :: t) = Some (Z.pos p)
    ∧ Forall (λ c, is_space c = false) (c :: t).
Proof.
  change (pretty (Z.pos p)) with (pretty_N_go (N.pos p) "").
  pose proof (pretty_N_go_no_space (N.pos p) "" (Forall_nil_2 _)) as Hns.
  destruct (pretty_N_go_int_digits (N.pos p) "") as (c & t & d & Heq & Hc & Hparse);
    [lia|].
  rewrite Heq in *. exists c, (list_ascii_of_string t).
  split_and!; [done|by eauto| |done].
  cbn [int_digits]. rewrite Hc. change (0 * 10 + d) with d. by rewrite Hparse.
Qed.

Lemma int_literal_digits c (t : list ascii) :
  is_Some (digit_of c) →
  match c :: t with
  | "-"%char :: ds => Z.opp <$> int_literal ds
  | "+"%char :: ds => int_literal ds
  | ds => int_literal ds
  end = int_literal (c :: t).
Proof.
  destruct c as [[] [] [] [] [] [] [] []]; intros [d H];
    try (vm_compute in H; discriminate H); reflexivity.
Qed.

Lemma digit_is_ascii c d : digit_of c = Some d → (N_of_ascii c <? 128)%N = true.
Proof.
  destruct c as [[] [] [] [] [] [] [] []]; intros H;
    try (vm_compute in H; discriminate H); reflexivity.
Qed.

Lemma pretty_N_go_ascii (x : N) (s : string) :
  is_ascii s = true → is_ascii (pretty_N_go x s) = true.
Proof.
  revert s. induction (N.lt_wf_0 x) as [x _ IH]; intros s Hs.
  destruct (N.eq_0_gt_0_cases x) as [->|Hx]; [by rewrite pretty_N_go_0|].
  rewrite pretty_N_go_step by done. apply IH; [by apply N.div_lt|].
  cbn [is_ascii]. rewrite Hs.
  rewrite (digit_is_ascii _ (Z.of_N (x `mod` 10))); [done|].
  apply digit_of_pretty_N_char, N.mod_lt. lia.
Qed.

(** The decimal text of an integer is ASCII. *)
Lemma pretty_is_ascii (z : Z) : is_ascii (pretty z) = true.
Proof.
  destruct z as [|p|p]; [reflexivity| |].
  - change (pretty (Z.pos p)) with (pretty_N_go (N.pos p) "").
    by apply pretty_N_go_ascii.
  - change (pretty (Z.neg p)) with ("-" +:+ pretty_N_go (N.pos p) "").
    change (is_ascii (String "-" (pretty_N_go (N.pos p) "")) = true).
    cbn [is_ascii]. by rewrite pretty_N_go_ascii.
Qed.

(** [int(str(z))] is [z], as long as [z] has no more digits than the
    interpreter reads. *)
Lemma ascii_int_pretty (z : Z) :
  (decimal_digits z ≤ max_str_digits)%N → ascii_int (pretty z) = Some z.
Proof.
  unfold decimal_digits. destruct z as [|p|p]; [reflexivity| |]; intros Hcap.
  - destruct (int_digits_pretty p) as (c & t & Heq & Hc & Hint & Hns).
    unfold ascii_int. rewrite Heq in *. rewrite strip_no_space by done.
    rewrite int_literal_digits by done. unfold int_literal.
    destruct (N.ltb_spec max_str_digits (count_digits (c :: t))); [lia|done].
  - destruct (int_digits_pretty p) as (c & t & Heq & Hc & Hint & Hns).
    unfold ascii_int. change (pretty (Z.neg p)) with ("-" +:+ pretty (Z.pos p)) in *.
    change (list_ascii_of_string ("-" +:+ pretty (Z.pos p)))
      with ("-"%char :: list_ascii_of_string (pretty (Z.pos p))) in *.
    rewrite Heq in *. rewrite strip_no_space by (by constructor).
    unfold int_literal.
    change (count_digits ("-"%char :: c :: t)) with (0 + count_digits (c :: t))%N in Hcap.
    destruct (N.ltb_spec max_str_digits (count_digits (c :: t))); [lia|].
    by rewrite Hint.
Qed.

Lemma py_int_pretty (z : Z) :
  (decimal_digits z ≤ max_str_digits)%N → py_int (pretty z) = Some z.
Proof.
  intros Hcap. rewrite py_int_ascii_text by apply pretty_is_ascii.
  by apply ascii_int_pretty.
Qed.

(** X17. Every integer written in decimal with no more digits than [int]
    reads (4300) is taken as the count, zero and the negative ones
    included: [parse_limit] hands it on as it is, and [list messages]
    passes it to the fetch unchecked. *)
Theorem any_integer_is_a_count {W} (c : Cli W) (t : string) (z : Z) rest :
  (decimal_digits z ≤ max_str_digits)%N →
  parse_limit c (t :: pretty z :: rest) = (PyStr (lower t), PyInt z)
  ∧ ∀ s : State W,
      truthy (current (self s)) = true →
      py_in (PyStr (lower t)) message_targets = true →
      ∃ r s', cmd_list (t :: pretty z :: rest) s = (r, s')
        ∧ calls s' = calls s ++ [GetAllMessages (current (self s)) (PyInt z)].
Proof.
  intros Hcap.
  assert (∀ c' : Cli W, parse_limit c' (t :: pretty z :: rest)
                        = (PyStr (lower t), PyInt z)) as Hparse.
  { intros c'. cbn [parse_limit]. by rewrite py_int_pretty. }
  split; [done|]. intros s Hcur Htarget.
  rewrite cmd_list_run, Hparse, Hcur, Htarget.
  destruct (targets_inv (PyStr (lower t))) as [Hm _]. rewrite (Hm Htarget).
  cbn [negb]. rewrite list_messages_run.
  destruct (client_get_all_messages _ _ _ _) as [[msgs|e] w]; by eexists _, _.
Qed.

End Count.

Lemma any_integer_is_a_count_witness :
  parse_limit new_cli ["messages"; "-5"] = (PyStr "messages", PyInt (-5))
  ∧ ∃ r s',
      cmd_list ["messages"; "-5"]
        (start_state (selected (PyInt 42) memory_facade) demo_account) = (r, s')
      ∧ calls s' = [] ++ [GetAllMessages (PyInt 42) (PyInt (-5))].
Proof.
  assert (decimal_digits (-5) ≤ max_str_digits)%N as Hcap by (vm_compute; discriminate).
  destruct (any_integer_is_a_count (interp := ascii_builtins) new_cli "messages" (-5) [] Hcap)
    as [Hparse _].
  destruct (any_integer_is_a_count (interp := ascii_builtins)
              (selected (PyInt 42) memory_facade) "messages" (-5) [] Hcap)
    as [_ Hlist].
  split; [exact Hparse|].
  apply (Hlist (start_state (selected (PyInt 42) memory_facade) demo_account));
    reflexivity.
Defined.
